(** * jain-sms-api: the SMS controller (controllers/smsController.js)

    A shallow embedding of the controller's functions and of the
    token cache around [getAuthToken], with the properties of the
    specification stated over it.

    Conventions of the embedding.
    - A JavaScript string is a [string]; the controller inspects ASCII
      characters only: the digits, [&], [,], the field names of the gateway's
      response and the placeholder of a template.
    - The controller tests request fields and environment variables for
      truthiness only ([!x], [x || y], [x ? a : b]); for a string field the
      falsy values are [undefined], [null] and the empty string, so an absent
      field is represented by the empty string.
    - [null] in a produced object is [None].
    - A plain JavaScript object used as a dictionary is a list of its own
      properties in creation order, together with the members it inherits
      from [Object.prototype]. *)

From Stdlib Require Import ZArith NArith Lia Bool Ascii String List.
From Stdlib Require Import DecimalString Sorting.Sorted Sorting.Permutation.
From stdpp Require Import base option list.
Import ListNotations.
Local Open Scope string_scope.
Local Open Scope list_scope.

(** ** Strings *)

Module Str.

(** [x] is truthy as a JavaScript string. *)
Definition truthy (x : string) : bool :=
  match x with EmptyString => false | String _ _ => true end.

(** [x || y] on strings. *)
Definition or_else (x y : string) : string :=
  if truthy x then x else y.

(** [\d]: an ASCII digit. *)
Definition is_digit (c : ascii) : bool :=
  let n := nat_of_ascii c in (48 <=? n)%nat && (n <=? 57)%nat.

(** [s.replace(/\D/g, '')]. *)
Fixpoint strip_non_digits (s : string) : string :=
  match s with
  | EmptyString => EmptyString
  | String c r =>
      if is_digit c then String c (strip_non_digits r) else strip_non_digits r
  end.

(** Every character of [s] satisfies [p]. *)
Fixpoint all_chars (p : ascii -> bool) (s : string) : bool :=
  match s with
  | EmptyString => true
  | String c r => p c && all_chars p r
  end.

(** [s.startsWith(p)]: the rest of [s] after [p], when [p] is a prefix. *)
Fixpoint strip_prefix (p s : string) : option string :=
  match p, s with
  | EmptyString, _ => Some s
  | String a p', String b s' =>
      if Ascii.eqb a b then strip_prefix p' s' else None
  | String _ _, EmptyString => None
  end.

Definition starts_with (p s : string) : bool :=
  match strip_prefix p s with Some _ => true | None => false end.

(** [String(n)] for a non-negative integer. *)
Definition of_N (n : N) : string := NilZero.string_of_uint (N.to_uint n).

(** [l.join(',')]. *)
Fixpoint join_comma (l : list string) : string :=
  match l with
  | [] => ""
  | [x] => x
  | x :: r => x ++ "," ++ join_comma r
  end.

End Str.

(** ** Phone numbers *)

(** [/^[6-9]\d{9}$/.test(s)] *)
Definition indian_mobile (s : string) : bool :=
  match s with
  | String c r =>
      let n := nat_of_ascii c in
      (54 <=? n)%nat && (n <=? 57)%nat
      && Str.all_chars Str.is_digit r && (String.length r =? 9)%nat
  | EmptyString => false
  end.

(** [validatePhoneNumber(phone)] *)
Definition validatePhoneNumber (phone : string) : bool :=
  let cleaned := Str.strip_non_digits phone in
  indian_mobile cleaned.

(** [formatPhoneWithCountryCode(phone)] *)
Definition formatPhoneWithCountryCode (phone : string) : string :=
  let cleaned := Str.strip_non_digits phone in
  if Str.starts_with "91" cleaned then cleaned else "91" ++ cleaned.

(** The words of the specification: exactly ten digits, the first of them
    in 6..9. *)
Definition ten_digits_first_6_to_9 (s : string) : Prop :=
  String.length s = 10%nat /\
  exists c r, s = String c r /\ (c = "6" \/ c = "7" \/ c = "8" \/ c = "9")%char.

(** ** Plain objects used as dictionaries *)

Module JsObject.

(** The members every plain object inherits from [Object.prototype].  Each
    of them is a function or an accessor returning an object: truthy, not a
    string, and without a [push] method. *)
Definition prototype_members : list string :=
  [ "constructor"; "__defineGetter__"; "__defineSetter__"; "hasOwnProperty";
    "__lookupGetter__"; "__lookupSetter__"; "isPrototypeOf";
    "propertyIsEnumerable"; "toString"; "valueOf"; "__proto__";
    "toLocaleString" ].

Definition is_prototype_member (k : string) : bool :=
  existsb (String.eqb k) prototype_members.

(** Own properties, in creation order. *)
Definition obj (V : Type) : Type := list (string * V).

(** The outcome of reading [o[k]]. *)
Inductive lookup (V : Type) : Type :=
| Own (v : V)
| Inherited (name : string)
| Undefined.
Arguments Own {V} v.
Arguments Inherited {V} name.
Arguments Undefined {V}.

Fixpoint own {V} (o : obj V) (k : string) : option V :=
  match o with
  | [] => None
  | (k', v) :: r => if String.eqb k k' then Some v else own r k
  end.

(** [o[k]]: own properties shadow the inherited ones. *)
Definition get {V} (o : obj V) (k : string) : lookup V :=
  match own o k with
  | Some v => Own v
  | None => if is_prototype_member k then Inherited k else Undefined
  end.

(** [o[k] = v] for a [k] that is not yet an own property. *)
Definition define {V} (o : obj V) (k : string) (v : V) : obj V :=
  o ++ [(k, v)].

(** Mutation of the value held by the own property [k]. *)
Fixpoint update {V} (o : obj V) (k : string) (f : V -> V) : obj V :=
  match o with
  | [] => []
  | (k', v) :: r =>
      if String.eqb k k' then (k', f v) :: r else (k', v) :: update r k f
  end.

(** Decimal value of a string of digits. *)
Fixpoint digits_value (acc : N) (s : string) : N :=
  match s with
  | EmptyString => acc
  | String c r => digits_value (10 * acc + (N_of_ascii c - 48))%N r
  end.

(** A property key is an array index when it is the canonical decimal
    form of an integer in [0, 2^32 - 2]. *)
Definition array_index (k : string) : option N :=
  match k with
  | EmptyString => None
  | String c r =>
      if Str.all_chars Str.is_digit k
         && (negb (Ascii.eqb c "0") || String.eqb r "")
      then let n := digits_value 0 k in
           if (n <=? 4294967294)%N then Some n else None
      else None
  end.

Fixpoint insert_by_index {V} (n : N) (e : string * V)
    (l : list (N * (string * V))) : list (N * (string * V)) :=
  match l with
  | [] => [(n, e)]
  | (m, f) :: r =>
      if (n <=? m)%N then (n, e) :: l else (m, f) :: insert_by_index n e r
  end.

Fixpoint index_entries {V} (o : obj V) : list (N * (string * V)) :=
  match o with
  | [] => []
  | e :: r =>
      match array_index (fst e) with
      | Some n => insert_by_index n e (index_entries r)
      | None => index_entries r
      end
  end.

Definition is_index_key {V} (e : string * V) : bool :=
  match array_index (fst e) with Some _ => true | None => false end.

(** [Object.entries(o)]: the array-index keys in ascending numeric order,
    then the other keys in creation order. *)
Definition entries {V} (o : obj V) : list (string * V) :=
  map snd (index_entries o) ++ List.filter (fun e => negb (is_index_key e)) o.

End JsObject.

(** ** The gateway's response to a send call *)

(** The longest prefix of [s] free of [&]: what [[^&]+] consumes. *)
Fixpoint until_amp (s : string) : string :=
  match s with
  | EmptyString => EmptyString
  | String c r => if Ascii.eqb c "&" then EmptyString else String c (until_amp r)
  end.

(** [s.match(/key([^&]+)/)], as its first capture group: the leftmost
    position where [key] is followed by at least one character other
    than [&]. *)
Fixpoint match_field (key s : string) : option string :=
  match s with
  | EmptyString => None
  | String _ r =>
      match Str.strip_prefix key s with
      | Some after =>
          match until_amp after with
          | EmptyString => match_field key r
          | v => Some v
          end
      | None => match_field key r
      end
  end.

(** [s.split(',')] *)
Fixpoint split_comma (s : string) : list string :=
  match s with
  | EmptyString => [ "" ]
  | String c r =>
      if Ascii.eqb c ","
      then "" :: split_comma r
      else match split_comma r with
           | h :: t => String c h :: t
           | [] => [ String c "" ]
           end
  end.

(** The value of an [errorMessage] or [error] property: a string, or one
    of the members inherited from [Object.prototype]. *)
Inductive ErrorText : Type :=
| Text (s : string)
| PrototypeMember (name : string).

(** The [errorMessages] table of [parsePragatiResponse]. *)
Definition errorMessages : JsObject.obj string :=
  [ ("1", "Invalid Receiver - Mobile number is invalid or greater than 16 digits");
    ("2", "Invalid Sender - Wrong sender ID or greater than 16 digits");
    ("3", "Invalid Message - Blank message or template does not match DLT template ID");
    ("4", "Service not available - Operator or server down");
    ("5", "Authorization failed - Wrong credentials");
    ("6", "Contract Expired");
    ("7", "Credit Expired - Account balance is zero");
    ("8", "Empty Receiver - No recipient number provided");
    ("14", "Non-compliant message - Violates TRAI guidelines or template mismatch") ].

Definition unknown_error_code (code : string) : string :=
  "Unknown error code: " ++ code.

(** [errorMessages[code] || `Unknown error code: ${code}`] *)
Definition error_message_of (code : string) : ErrorText :=
  match JsObject.get errorMessages code with
  | JsObject.Own m => if Str.truthy m then Text m else Text (unknown_error_code code)
  | JsObject.Inherited name => PrototypeMember name
  | JsObject.Undefined => Text (unknown_error_code code)
  end.

Record ParsedResult : Type := {
  success : bool;
  guid : option string;
  errorCode : string;
  errorMessage : option ErrorText;
  seqno : option string
}.

(** [seqnos[index] || null] *)
Definition seqno_at (seqnos : list string) (index : nat) : option string :=
  match seqnos !! index with
  | Some s => if Str.truthy s then Some s else None
  | None => None
  end.

Definition parsed_result (guid : option string) (seqnos : list string)
    (index : nat) (code : string) : ParsedResult :=
  let zero := String.eqb code "0" in
  {| success := zero;
     guid := if zero then guid else None;
     errorCode := code;
     errorMessage := if negb zero then Some (error_message_of code) else None;
     seqno := seqno_at seqnos index |}.

(** [parsePragatiResponse(responseText, recipientCount)] *)
Definition parsePragatiResponse (responseText : string) (recipientCount : nat)
    : list ParsedResult :=
  let guidMatch := match_field "guid=" responseText in
  let errorCodesMatch := match_field "errorcode=" responseText in
  let seqnosMatch := match_field "seqno=" responseText in
  let guid := guidMatch in
  let errorCodesStr := match errorCodesMatch with Some m => m | None => "0" end in
  let seqnos := match seqnosMatch with Some m => split_comma m | None => [] end in
  let errorCodes := split_comma errorCodesStr in
  imap (parsed_result guid seqnos) errorCodes.

(** The codes and the sequence numbers [parsePragatiResponse] works on. *)
Definition error_codes_of (responseText : string) : list string :=
  match match_field "errorcode=" responseText with
  | Some m => split_comma m
  | None => [ "0" ]
  end.

Definition seqnos_of (responseText : string) : list string :=
  match match_field "seqno=" responseText with
  | Some m => split_comma m
  | None => []
  end.

(** ** Templates *)

(** [template.replace(/\{\#var\#\}/g, () => String(vars[idx++] ?? ''))];
    [skip] counts the characters of a placeholder still to be dropped. *)
Fixpoint replace_vars (skip : nat) (template : string) (vars : list string)
    : string :=
  match template with
  | EmptyString => EmptyString
  | String c r =>
      match skip with
      | S k => replace_vars k r vars
      | O =>
          if Str.starts_with "{#var#}" template
          then match vars with
               | v :: vars' => v ++ replace_vars 6 r vars'
               | [] => replace_vars 6 r []
               end
          else String c (replace_vars 0 r vars)
      end
  end.

Definition applyTemplate (template : string) (vars : list string) : string :=
  replace_vars 0 template vars.

(** ** Requests

    The bodies below are those of requests whose fields have their
    documented types: strings, or absent, which the empty string stands
    for.  The handlers on bodies of any JSON are in [Wire]. *)

Record Recipient : Type := {
  phone : string;
  message : string;
  templateVars : list string
}.

(** The body of [POST /send]; [recipients] is [None] when the field is
    missing or is not an array. *)
Record BulkBody : Type := {
  template : string;
  templateid : string;
  recipients : option (list Recipient)
}.

(** The body of [POST /send-single]. *)
Record SingleBody : Type := {
  single_phone : string;
  single_message : string
}.

(** [process.env] *)
Record Env : Type := {
  PRAGATI_API_BASE_URL : string;
  PRAGATI_API_KEY : string;
  SMS_SENDER_ID : string
}.

(** One entry of the [results] array; the three object literals of
    [sendBulkSMS]. *)
Inductive SmsResult : Type :=
| Delivered (phone : string) (guid seqno : option string)
| Refused (phone : string) (error : option ErrorText) (errorCode : string)
| BatchFailed (phone : string) (error : string).

Definition result_success (r : SmsResult) : bool :=
  match r with Delivered _ _ _ => true | _ => false end.


Record Summary : Type := {
  total : nat;
  successful : nat;
  failed : nat
}.

(** What a handler does with [res] and [next]. *)
Inductive Reply : Type :=
| BadRequest (error message : string)
| Json (message : string) (summary : Summary) (results : list SmsResult)
| NextError (message : string).

(** A computation that returns or throws. *)
Inductive result (A : Type) : Type :=
| Return (a : A)
| Throw (message : string).
Arguments Return {A} a.
Arguments Throw {A} message.

(** ** Grouping and batching *)

(** [recipient.message ||
     (template ? applyTemplate(template, recipient.templateVars || []) : '')] *)
Definition resolve_message (template : string) (recipient : Recipient) : string :=
  Str.or_else recipient.(message)
    (if Str.truthy template
     then applyTemplate template recipient.(templateVars)
     else "").

Definition push_not_a_function : string :=
  "groupedByMessage[messageText].push is not a function".

(** The loop that fills [groupedByMessage]. *)
Fixpoint group_loop (template : string) (rs : list Recipient)
    (groupedByMessage : JsObject.obj (list Recipient))
    : result (JsObject.obj (list Recipient)) :=
  match rs with
  | [] => Return groupedByMessage
  | recipient :: rest =>
      let messageText := resolve_message template recipient in
      match JsObject.get groupedByMessage messageText with
      | JsObject.Undefined =>
          let created := JsObject.define groupedByMessage messageText [] in
          group_loop template rest
            (JsObject.update created messageText (fun a => a ++ [recipient]))
      | JsObject.Own _ =>
          group_loop template rest
            (JsObject.update groupedByMessage messageText
               (fun a => a ++ [recipient]))
      | JsObject.Inherited _ => Throw push_not_a_function
      end
  end.

Record Batch : Type := {
  messageText : string;
  members : list Recipient
}.

(** [group.slice(i, j)] for [i <= j]. *)
Definition slice {A} (i j : nat) (group : list A) : list A :=
  take (j - i) (drop i group).

(** [for (let i = 0; i < group.length; i += 100) ... group.slice(i, i + 100)];
    the loop runs at most [group.length] times. *)
Fixpoint chunk_loop {A} (fuel i : nat) (group : list A) : list (list A) :=
  match fuel with
  | O => []
  | S fuel' =>
      if (i <? length group)%nat
      then slice i (i + 100) group :: chunk_loop fuel' (i + 100) group
      else []
  end.

Definition chunks {A} (group : list A) : list (list A) :=
  chunk_loop (length group) 0 group.

Definition batches_of_group (e : string * list Recipient) : list Batch :=
  let '(messageText, group) := e in
  if (length group <=? 100)%nat
  then [ {| messageText := messageText; members := group |} ]
  else map (fun c => {| messageText := messageText; members := c |})
           (chunks group).

(** The batches of a request, in dispatch order. *)
Definition make_batches (template : string) (rs : list Recipient)
    : result (list Batch) :=
  match group_loop template rs [] with
  | Return groupedByMessage =>
      Return (concat (map batches_of_group (JsObject.entries groupedByMessage)))
  | Throw m => Throw m
  end.

(** *** The grouping in the words of the specification *)






(** No resolved text names a member of [Object.prototype]. *)
Definition no_inherited_text (template : string) (rs : list Recipient) : bool :=
  forallb (fun r => negb (JsObject.is_prototype_member (resolve_message template r)))
          rs.


(** ** Dispatch *)

(** The send call: query parameters and bearer token. *)
Record SendRequest : Type := {
  base_url : string;
  to : string;
  from : string;
  text : string;
  category : string;
  dlt_templateid : string;
  bearer : string
}.

(** What [await fetch(...)] followed by [await response.text()] yields. *)
Inductive SendOutcome : Type :=
| Threw (message : string)
| Responded (status : N) (responseText : string).

(** [response.ok] *)
Definition http_ok (status : N) : bool :=
  ((200 <=? status) && (status <=? 299))%N.

Definition http_error_text (status : N) (responseText : string) : string :=
  "HTTP " ++ Str.of_N status ++ ": " ++ responseText.

(** The body of [group.forEach((recipient, index) => ...)] on a successful
    response. *)
Definition reconcile (parsed : ParsedResult) (recipient : Recipient) : SmsResult :=
  if parsed.(success)
  then Delivered recipient.(phone) parsed.(guid) parsed.(seqno)
  else Refused recipient.(phone) parsed.(errorMessage) parsed.(errorCode).

Definition parsed_undefined : string :=
  "Cannot read properties of undefined (reading 'success')".

(** The results pushed for one batch: the [try] block and its [catch]. *)
Definition batch_results (group : list Recipient) (outcome : SendOutcome)
    : list SmsResult :=
  match outcome with
  | Threw m => map (fun recipient => BatchFailed recipient.(phone) m) group
  | Responded status responseText =>
      let parsedResults := parsePragatiResponse responseText (length group) in
      if negb (http_ok status)
      then map (fun recipient =>
                  BatchFailed recipient.(phone)
                    (http_error_text status responseText)) group
      else match parsedResults with
           | [] =>
               map (fun recipient => BatchFailed recipient.(phone) parsed_undefined)
                   group
           | first :: _ =>
               imap (fun index recipient =>
                       reconcile (default first (parsedResults !! index)) recipient)
                    group
           end
  end.

(** What the handler does to the outside world, in order. *)
Inductive Effect : Type :=
| GetAuthToken
| Send (batchIndex : nat) (request : SendRequest)
| Delay (ms : N).

(** The gateway as seen by one request: the outcome of the call made for
    each batch. *)
Definition Gateway : Type := nat -> SendRequest -> SendOutcome.

Definition send_request (env : Env) (templateid token : string) (b : Batch)
    : SendRequest :=
  {| base_url := env.(PRAGATI_API_BASE_URL);
     to := Str.join_comma (map (fun r => formatPhoneWithCountryCode r.(phone))
                               b.(members));
     from := env.(SMS_SENDER_ID);
     text := b.(messageText);
     category := "bulk";
     dlt_templateid := templateid;
     bearer := token |}.

(** [for (let batchIndex = 0; batchIndex < batches.length; batchIndex++)]:
    the results pushed and the effects performed from [batchIndex] on. *)
Fixpoint send_batches (env : Env) (templateid token : string) (gateway : Gateway)
    (batchIndex : nat) (batches : list Batch) : list SmsResult * list Effect :=
  match batches with
  | [] => ([], [])
  | b :: rest =>
      let request := send_request env templateid token b in
      let pushed := batch_results b.(members) (gateway batchIndex request) in
      let '(results, effects) :=
        send_batches env templateid token gateway (S batchIndex) rest in
      (pushed ++ results, Send batchIndex request :: Delay 500 :: effects)
  end.



Definition is_send (e : Effect) : bool :=
  match e with Send _ _ => true | _ => false end.

(** ** Handlers *)

(** The loop that validates each recipient; [Some] is the reply sent by the
    first recipient that fails. *)
Fixpoint validate_recipients (template : string) (rs : list Recipient)
    : option Reply :=
  match rs with
  | [] => None
  | recipient :: rest =>
      if negb (Str.truthy recipient.(phone))
         || negb (validatePhoneNumber recipient.(phone))
      then Some (BadRequest "Invalid phone number"
                   ("Invalid phone number: "
                    ++ Str.or_else recipient.(phone) "missing"))
      else if negb (Str.truthy recipient.(message)) && negb (Str.truthy template)
      then Some (BadRequest "Invalid recipient"
                   "Each recipient must have a message, or provide a template")
      else validate_recipients template rest
  end.

Definition count_success (results : list SmsResult) : nat :=
  length (List.filter result_success results).

Definition summary_reply (results : list SmsResult) : Reply :=
  let successCount := count_success results in
  let failedCount := (length results - successCount)%nat in
  Json ("Sent " ++ Str.of_N (N.of_nat successCount) ++ " SMS, "
        ++ Str.of_N (N.of_nat failedCount) ++ " failed")
       {| total := length results;
          successful := successCount;
          failed := failedCount |}
       results.

Definition configuration_incomplete : string := "SMS configuration incomplete".

(** [sendBulkSMS(req, res, next)]; [auth] is what [await getAuthToken()]
    yields for this request. *)
Definition sendBulkSMS (env : Env) (auth : result string) (gateway : Gateway)
    (body : BulkBody) : Reply * list Effect :=
  match body.(recipients) with
  | None | Some [] =>
      (BadRequest "Invalid request" "recipients must be a non-empty array", [])
  | Some rs =>
      if (1000 <? length rs)%nat
      then (BadRequest "Too many recipients" "Maximum 1000 recipients per request", [])
      else
        match validate_recipients body.(template) rs with
        | Some reply => (reply, [])
        | None =>
            if negb (Str.truthy env.(PRAGATI_API_BASE_URL))
               || negb (Str.truthy env.(SMS_SENDER_ID))
               || negb (Str.truthy body.(templateid))
            then (NextError configuration_incomplete, [])
            else
              match auth with
              | Throw m => (NextError m, [GetAuthToken])
              | Return token =>
                  match make_batches body.(template) rs with
                  | Throw m => (NextError m, [GetAuthToken])
                  | Return batches =>
                      let '(results, effects) :=
                        send_batches env body.(templateid) token gateway 0 batches in
                      (summary_reply results, GetAuthToken :: effects)
                  end
              end
        end
  end.

(** The recipients of a request that passes the checks made before
    [getAuthToken] is called. *)
Definition accepted (env : Env) (body : BulkBody) : option (list Recipient) :=
  match body.(recipients) with
  | Some (r :: rest) =>
      if negb (1000 <? length (r :: rest))%nat
         && match validate_recipients body.(template) (r :: rest) with
            | None => true
            | Some _ => false
            end
         && Str.truthy env.(PRAGATI_API_BASE_URL)
         && Str.truthy env.(SMS_SENDER_ID)
         && Str.truthy body.(templateid)
      then Some (r :: rest)
      else None
  | _ => None
  end.

(** [sendSingleSMS(req, res, next)] *)
Definition sendSingleSMS (env : Env) (auth : result string) (gateway : Gateway)
    (body : SingleBody) : Reply * list Effect :=
  let phone := body.(single_phone) in
  let message := body.(single_message) in
  if negb (Str.truthy phone) || negb (Str.truthy message)
  then (BadRequest "Invalid request" "phone and message are required", [])
  else if negb (validatePhoneNumber phone)
  then (BadRequest "Invalid phone number"
          "Phone number must be a valid 10-digit Indian mobile number", [])
  else
    sendBulkSMS env auth gateway
      {| template := "";
         templateid := "";
         recipients := Some [ {| phone := phone; message := message;
                                 templateVars := [] |} ] |}.

(** ** The token cache and [getAuthToken]

    [getAuthToken] is asynchronous: it runs until its next [await], and
    other requests run while it is suspended.  The module state
    ([cachedToken], [tokenRefreshPromise]), the refresh operations and the
    callers are one state; an event is one uninterrupted stretch of
    execution: a call running up to its first [await], the gateway's reply
    resuming a refresh, a settled promise resuming a caller, or time
    passing. *)

Module Session.

(** [cachedToken]; a [token] of [null] is the empty string, which the code
    does not tell apart (it only tests [cachedToken.token] for truthiness
    and sends [cachedToken.token || '']). *)
Record Credential : Type := {
  token : string;
  expiry : Z
}.

(** What [loadTokenFromDisk] returns when no snapshot can be read. *)
Definition no_credential : Credential := {| token := ""; expiry := 0 |}.

Definition SIX_DAYS : Z := 6 * 24 * 60 * 60 * 1000.

(** [cachedToken.token && Date.now() < cachedToken.expiry] *)
Definition valid (c : Credential) (now : Z) : bool :=
  Str.truthy c.(token) && (now <? c.(expiry))%Z.

(** The body of a gateway reply, as [response.json()] sees it. *)
Inductive JsonBody : Type :=
| NotJson (message : string)
| TokenField (token : string).

(** What an awaited [fetch] yields. *)
Inductive FetchReply : Type :=
| NetworkError (message : string)
| Http (status : N) (bodyText : string) (json : JsonBody).

(** The refresh operation held by [tokenRefreshPromise]: where it is
    suspended, or how its promise settled. *)
Inductive Refresh : Type :=
| AwaitGenerate
| AwaitEnable (token : string)
| Fulfilled (token : string)
| Rejected (message : string).

(** One invocation of [getAuthToken]. *)
Inductive Caller : Type :=
| Idle
| AwaitOther (p : nat)
| AwaitOwn (p : nat)
| Returned (token : string)
| Thrown (message : string).

(** Calls to the gateway and calls of [fs.writeFileSync] on the snapshot
    file.  [DiskWrite c] records that the write of [c] was attempted, not
    that it succeeded. *)
Inductive IO : Type :=
| Generate (old_token : string)
| Enable (token : string)
| DiskWrite (c : Credential).

Record State : Type := {
  cachedToken : Credential;
  tokenRefreshPromise : option nat;
  refreshes : list Refresh;
  callers : list Caller;
  now : Z;
  io : list IO
}.

Inductive Event : Type :=
| Call (i : nat)
| GenerateReplied (p : nat) (r : FetchReply)
| EnableReplied (p : nat) (r : FetchReply)
| Resume (i : nat)
| Tick (ms : Z).

Definition set_caller (i : nat) (c : Caller) (s : State) : State :=
  {| cachedToken := s.(cachedToken);
     tokenRefreshPromise := s.(tokenRefreshPromise);
     refreshes := s.(refreshes);
     callers := <[i := c]> s.(callers);
     now := s.(now);
     io := s.(io) |}.

Definition not_configured : string :=
  "PRAGATI_API_BASE_URL or PRAGATI_API_KEY not configured".

(** Lines 61-128 up to the first [await]: the configuration check, the
    generate call, and the promise stored in [tokenRefreshPromise]. *)
Definition start_refresh (env : Env) (i : nat) (s : State) : State :=
  if negb (Str.truthy env.(PRAGATI_API_BASE_URL))
     || negb (Str.truthy env.(PRAGATI_API_KEY))
  then set_caller i (Thrown not_configured) s
  else
    let p := length s.(refreshes) in
    {| cachedToken := s.(cachedToken);
       tokenRefreshPromise := Some p;
       refreshes := s.(refreshes) ++ [AwaitGenerate];
       callers := <[i := AwaitOwn p]> s.(callers);
       now := s.(now);
       io := s.(io) ++ [Generate (Str.or_else s.(cachedToken).(token) "")] |}.

(** The refresh throws: its promise rejects and [finally] clears the slot. *)
Definition reject (p : nat) (m : string) (s : State) : State :=
  {| cachedToken := s.(cachedToken);
     tokenRefreshPromise := None;
     refreshes := <[p := Rejected m]> s.(refreshes);
     callers := s.(callers);
     now := s.(now);
     io := s.(io) |}.

(** The generate reply was accepted: the enable call is made. *)
Definition call_enable (p : nat) (tok : string) (s : State) : State :=
  {| cachedToken := s.(cachedToken);
     tokenRefreshPromise := s.(tokenRefreshPromise);
     refreshes := <[p := AwaitEnable tok]> s.(refreshes);
     callers := s.(callers);
     now := s.(now);
     io := s.(io) ++ [Enable tok] |}.

(** [saveTokenToDisk(token)]: the write is attempted; its failure is caught
    and logged, and changes nothing else. *)
Definition saveTokenToDisk (c : Credential) (log : list IO) : list IO :=
  log ++ [DiskWrite c].

(** The enable reply was accepted: the credential is cached and saved, the
    promise fulfils and [finally] clears the slot. *)
Definition publish (p : nat) (tok : string) (s : State) : State :=
  let fresh := {| token := tok; expiry := s.(now) + SIX_DAYS |} in
  {| cachedToken := fresh;
     tokenRefreshPromise := None;
     refreshes := <[p := Fulfilled tok]> s.(refreshes);
     callers := s.(callers);
     now := s.(now);
     io := saveTokenToDisk fresh s.(io) |}.

Definition generate_failed (status : N) (errorText : string) : string :=
  "Failed to get auth token: " ++ Str.of_N status ++ " " ++ errorText.

Definition enable_failed (status : N) (errorText : string) : string :=
  "Failed to enable token: " ++ Str.of_N status ++ " " ++ errorText.

Definition token_not_found : string := "Token not found in API response".

(** The refresh resumes with the reply to the generate call. *)
Definition on_generate (p : nat) (r : FetchReply) (s : State) : State :=
  match r with
  | NetworkError m => reject p m s
  | Http status bodyText json =>
      if negb (http_ok status)
      then reject p (generate_failed status bodyText) s
      else match json with
           | NotJson m => reject p m s
           | TokenField tok =>
               if negb (Str.truthy tok)
               then reject p token_not_found s
               else call_enable p tok s
           end
  end.

(** The refresh resumes with the reply to the enable call. *)
Definition on_enable (p : nat) (tok : string) (r : FetchReply) (s : State)
    : State :=
  match r with
  | NetworkError m => reject p m s
  | Http status bodyText _ =>
      if negb (http_ok status)
      then reject p (enable_failed status bodyText) s
      else publish p tok s
  end.

(** [getAuthToken()] called by request [i], up to its first [await] or to
    its return. *)
Definition getAuthToken (env : Env) (i : nat) (s : State) : State :=
  if valid s.(cachedToken) s.(now)
  then set_caller i (Returned s.(cachedToken).(token)) s
  else match s.(tokenRefreshPromise) with
       | Some p => set_caller i (AwaitOther p) s
       | None => start_refresh env i s
       end.

(** One event; [None] when the event cannot happen in [s]. *)
Definition step (env : Env) (e : Event) (s : State) : option State :=
  match e with
  | Call i =>
      match s.(callers) !! i with
      | Some Idle => Some (getAuthToken env i s)
      | _ => None
      end
  | GenerateReplied p r =>
      match s.(refreshes) !! p with
      | Some AwaitGenerate => Some (on_generate p r s)
      | _ => None
      end
  | EnableReplied p r =>
      match s.(refreshes) !! p with
      | Some (AwaitEnable tok) => Some (on_enable p tok r s)
      | _ => None
      end
  | Resume i =>
      match s.(callers) !! i with
      | Some (AwaitOther p) =>
          match s.(refreshes) !! p with
          | Some (Fulfilled _) =>
              if valid s.(cachedToken) s.(now)
              then Some (set_caller i (Returned s.(cachedToken).(token)) s)
              else Some (start_refresh env i s)
          | Some (Rejected m) => Some (set_caller i (Thrown m) s)
          | _ => None
          end
      | Some (AwaitOwn p) =>
          match s.(refreshes) !! p with
          | Some (Fulfilled tok) => Some (set_caller i (Returned tok) s)
          | Some (Rejected m) => Some (set_caller i (Thrown m) s)
          | _ => None
          end
      | _ => None
      end
  | Tick ms =>
      if (0 <=? ms)%Z
      then Some {| cachedToken := s.(cachedToken);
                   tokenRefreshPromise := s.(tokenRefreshPromise);
                   refreshes := s.(refreshes);
                   callers := s.(callers);
                   now := s.(now) + ms;
                   io := s.(io) |}
      else None
  end.

(** A schedule of events. *)
Fixpoint run (env : Env) (es : list Event) (s : State) : option State :=
  match es with
  | [] => Some s
  | e :: rest =>
      match step env e s with
      | Some s' => run env rest s'
      | None => None
      end
  end.

(** The process with [n] requests about to call [getAuthToken]. *)
Definition init (c : Credential) (t : Z) (n : nat) : State :=
  {| cachedToken := c;
     tokenRefreshPromise := None;
     refreshes := [];
     callers := replicate n Idle;
     now := t;
     io := [] |}.

Definition is_call (e : Event) : bool :=
  match e with Call _ => true | _ => false end.

(** The reply makes the refresh throw. *)
Definition generate_fails (r : FetchReply) : bool :=
  match r with
  | NetworkError _ => true
  | Http status _ json =>
      negb (http_ok status)
      || match json with
         | NotJson _ => true
         | TokenField tok => negb (Str.truthy tok)
         end
  end.

Definition enable_fails (r : FetchReply) : bool :=
  match r with
  | NetworkError _ => true
  | Http status _ _ => negb (http_ok status)
  end.

(** The event settles the promise of a refresh. *)
Definition settles (e : Event) : bool :=
  match e with
  | GenerateReplied _ r => generate_fails r
  | EnableReplied _ _ => true
  | _ => false
  end.

(** The callers are concurrent: every call is made before the first
    refresh has settled. *)
Fixpoint concurrent (es : list Event) : bool :=
  match es with
  | [] => true
  | e :: rest =>
      if settles e then forallb (fun e' => negb (is_call e')) rest
      else concurrent rest
  end.


Definition is_generate (x : IO) : bool :=
  match x with Generate _ => true | _ => false end.

Definition is_enable (x : IO) : bool :=
  match x with Enable _ => true | _ => false end.

Definition is_disk_write (x : IO) : bool :=
  match x with DiskWrite _ => true | _ => false end.

Definition count_io (p : IO -> bool) (s : State) : nat :=
  length (List.filter p s.(io)).

(** The reply, arriving at [s], makes the refresh it answers throw. *)
Definition failing_reply (s : State) (e : Event) : option nat :=
  match e with
  | GenerateReplied p r =>
      match s.(refreshes) !! p with
      | Some AwaitGenerate => if generate_fails r then Some p else None
      | _ => None
      end
  | EnableReplied p r =>
      match s.(refreshes) !! p with
      | Some (AwaitEnable _) => if enable_fails r then Some p else None
      | _ => None
      end
  | _ => None
  end.

(** The event is the accepted reply to an enable call. *)
Definition enable_accepted (e : Event) : bool :=
  match e with
  | EnableReplied _ r => negb (enable_fails r)
  | _ => false
  end.

(** Every reply of the schedule is accepted. *)
Definition replies_accepted (es : list Event) : bool :=
  forallb (fun e => match e with
                    | GenerateReplied _ r => negb (generate_fails r)
                    | EnableReplied _ r => negb (enable_fails r)
                    | _ => true
                    end) es.


(** *** The states of a single refresh

    [c0] is the credential and [t0] the time at which the callers start
    to arrive. *)

Definition old_token (c0 : Credential) : string := Str.or_else c0.(token) "".

(** A caller that has not been answered yet. *)
Definition waiting (c : Caller) : Prop :=
  c = Idle \/ c = AwaitOther 0 \/ c = AwaitOwn 0.

(** Nobody has called yet. *)
Definition fresh (c0 : Credential) (t0 : Z) (s : State) : Prop :=
  s.(cachedToken) = c0
  /\ s.(tokenRefreshPromise) = None
  /\ s.(refreshes) = []
  /\ s.(io) = []
  /\ Forall (fun c => c = Idle) s.(callers)
  /\ (t0 <= s.(now))%Z.



(** The one refresh has thrown [m]. *)
Definition failed (c0 : Credential) (t0 : Z) (m : string) (s : State) : Prop :=
  s.(cachedToken) = c0
  /\ s.(tokenRefreshPromise) = None
  /\ s.(refreshes) = [Rejected m]
  /\ (s.(io) = [Generate (old_token c0)]
      \/ exists tok, s.(io) = [Generate (old_token c0); Enable tok])
  /\ Forall (fun c => waiting c \/ c = Thrown m) s.(callers)
  /\ (t0 <= s.(now))%Z.

(** *** A schedule that serves [n] concurrent callers *)

Definition accepted_generate (tok : string) : FetchReply :=
  Http 200 "token issued" (TokenField tok).

Definition accepted_enable : FetchReply :=
  Http 200 "token enabled" (NotJson "not JSON").

(** All [n] requests call, the gateway accepts both calls, all [n] callers
    are resumed. *)
Definition serve_all (n : nat) (tok : string) : list Event :=
  map Call (seq 0 n)
  ++ [GenerateReplied 0 (accepted_generate tok); EnableReplied 0 accepted_enable]
  ++ map Resume (seq 0 n).

End Session.

(** ** Sample inputs *)

Module Sample.

Definition env : Env :=
  {| PRAGATI_API_BASE_URL := "https://gateway.example/smpp";
     PRAGATI_API_KEY := "key";
     SMS_SENDER_ID := "JAINUN" |}.

Definition recipient (phone message : string) : Recipient :=
  {| phone := phone; message := message; templateVars := [] |}.

Definition body (rs : list Recipient) : BulkBody :=
  {| template := ""; templateid := "1007384370833937775"; recipients := Some rs |}.

(** Three recipients with three different texts: three batches. *)
Definition three : list Recipient :=
  [ recipient "9876543210" "alpha";
    recipient "9876543211" "beta";
    recipient "9876543212" "gamma" ].


(** One recipient: one batch. *)
Definition one : list Recipient := [ recipient "9876543210" "hello" ].


(** 250 recipients with the phones 9000000000, 9000000001, ... and one text. *)
Definition numbered (i : nat) : Recipient :=
  recipient (Str.of_N (9000000000 + N.of_nat i)) "same".

Definition two_hundred_fifty : list Recipient := map numbered (seq 0 250).

(** A gateway that accepts every message of every batch. *)
Definition accepting : Gateway :=
  fun _ _ => Responded 200 "guid=G1&errorcode=0&seqno=1".

(** A gateway whose second call throws. *)
Definition second_throws : Gateway :=
  fun k _ =>
    match k with
    | 1%nat => Threw "fetch failed"
    | _ => Responded 200 "guid=G1&errorcode=0&seqno=1"
    end.


(** Three concurrent callers and a gateway that accepts both calls. *)
Definition three_callers : list Session.Event :=
  [ Session.Call 0; Session.Call 1;
    Session.GenerateReplied 0 (Session.Http 200 "token: T1" (Session.TokenField "T1"));
    Session.Call 2; Session.Tick 40;
    Session.EnableReplied 0 (Session.Http 200 "enabled" (Session.NotJson "not JSON"));
    Session.Resume 1; Session.Resume 0; Session.Resume 2 ].

Definition three_callers_served : Session.State :=
  {| Session.cachedToken := {| Session.token := "T1"; Session.expiry := 518401040 |};
     Session.tokenRefreshPromise := None;
     Session.refreshes := [ Session.Fulfilled "T1" ];
     Session.callers :=
       [ Session.Returned "T1"; Session.Returned "T1"; Session.Returned "T1" ];
     Session.now := 1040;
     Session.io :=
       [ Session.Generate ""; Session.Enable "T1";
         Session.DiskWrite
           {| Session.token := "T1"; Session.expiry := 518401040 |} ] |}.

(** A refresh suspended at its enable call, with its owner and a waiter. *)
Definition awaiting_enable : Session.State :=
  {| Session.cachedToken := {| Session.token := "old"; Session.expiry := 500 |};
     Session.tokenRefreshPromise := Some 0%nat;
     Session.refreshes := [ Session.AwaitEnable "T1" ];
     Session.callers := [ Session.AwaitOwn 0; Session.AwaitOther 0 ];
     Session.now := 1000;
     Session.io := [ Session.Generate "old"; Session.Enable "T1" ] |}.

Definition enable_refused : Session.Event :=
  Session.EnableReplied 0 (Session.Http 503 "down" (Session.NotJson "not JSON")).



End Sample.

(** ** The gateway's response format

    The format documented above [parsePragatiResponse]:
    [guid=...&errorcode=0,0,7,0&seqno=919...,919...]. *)

(** A non-empty value free of the three separators of the format. *)
Definition plain_value (s : string) : bool :=
  Str.truthy s
  && Str.all_chars (fun c => negb (Ascii.eqb c "&") && negb (Ascii.eqb c ",")
                             && negb (Ascii.eqb c "=")) s.

(** The response text that carries a guid, the codes and the sequence
    numbers. *)
Definition render_response (guid : string) (codes seqnos : list string)
    : string :=
  "guid=" ++ guid ++ "&errorcode=" ++ Str.join_comma codes
  ++ "&seqno=" ++ Str.join_comma seqnos.

(** ** The recipients held by the groups *)


(** ** Templates: text without placeholder *)

(** [s] has no opening brace, hence no placeholder and no beginning of one. *)
Definition no_brace (s : string) : bool :=
  Str.all_chars (fun c => negb (Ascii.eqb c "{")) s.

(** ** Malformed requests *)

(** A recipient the validation loop of [sendBulkSMS] stops at. *)
Definition offending (template : string) (r : Recipient) : bool :=
  negb (validatePhoneNumber r.(phone))
  || (negb (Str.truthy r.(message)) && negb (Str.truthy template)).

(** The request is turned down by the checks that come first in
    [sendBulkSMS]. *)
Definition malformed (body : BulkBody) : bool :=
  match body.(recipients) with
  | None => true
  | Some rs =>
      (length rs =? 0)%nat || (1000 <? length rs)%nat
      || existsb (offending body.(template)) rs
  end.

(** ** Token status *)

(** ** Request bodies as they arrive

    [Recipient], [BulkBody] and [SingleBody] describe a body whose fields
    have their documented types.  [req.body] is whatever JSON the client
    sent: this module has the handlers on the parsed JSON, up to the point
    where the documented types are needed, and [decode] relates the two. *)

Module Wire.

(** A parsed JSON value.  Of a number the handlers only ever test whether
    it is zero ([0] or [-0]). *)
#[local] Unset Elimination Schemes.
Inductive Json : Type :=
| JNull
| JBool (b : bool)
| JNumber (nonzero : bool)
| JString (s : string)
| JArray (items : list Json)
| JObject (members : list (string * Json)).
#[local] Set Elimination Schemes.

(** Truthiness of what a property read yields; [None] is [undefined]. *)
Definition truthy (v : option Json) : bool :=
  match v with
  | None | Some JNull => false
  | Some (JBool b) => b
  | Some (JNumber nonzero) => nonzero
  | Some (JString s) => Str.truthy s
  | Some (JArray _) | Some (JObject _) => true
  end.

Definition is_string (v : option Json) : bool :=
  match v with Some (JString _) => true | _ => false end.

(** [v.k] for a [v] that is not [null] and a [k] among [phone], [message]
    and [templateVars]: an own property of an object, and [undefined] on
    every other value, none of these names being inherited. *)
Definition property (v : Json) (k : string) : option Json :=
  match v with
  | JObject members => JsObject.own members k
  | _ => None
  end.

(** [const { template, templateid, recipients } = req.body], the body being
    an object or an array. *)
Record BulkRequest : Type := {
  raw_template : option Json;
  raw_templateid : option Json;
  raw_recipients : option Json
}.

(** [const { phone, message } = req.body] *)
Record SingleRequest : Type := {
  raw_phone : option Json;
  raw_message : option Json
}.

(** How the validation ends: a 400 reply, an exception, or nothing. *)
Inductive Verdict : Type :=
| Refuse (error message : string)
| Raise (message : string)
| Pass.

Definition reading_phone_of_null : string :=
  "Cannot read properties of null (reading 'phone')".

Definition replace_not_a_function : string := "phone.replace is not a function".

(** The body of the loop that validates each recipient. *)
Definition check_recipient (template : option Json) (recipient : Json)
    : Verdict :=
  match recipient with
  | JNull => Raise reading_phone_of_null
  | _ =>
      let phone := property recipient "phone" in
      if negb (truthy phone)
      then Refuse "Invalid phone number" "Invalid phone number: missing"
      else match phone with
           | Some (JString s) =>
               if negb (validatePhoneNumber s)
               then Refuse "Invalid phone number" ("Invalid phone number: " ++ s)
               else if negb (truthy (property recipient "message"))
                       && negb (truthy template)
               then Refuse "Invalid recipient"
                      "Each recipient must have a message, or provide a template"
               else Pass
           | _ => Raise replace_not_a_function
           end
  end.

Fixpoint check_recipients (template : option Json) (items : list Json)
    : Verdict :=
  match items with
  | [] => Pass
  | recipient :: rest =>
      match check_recipient template recipient with
      | Pass => check_recipients template rest
      | verdict => verdict
      end
  end.

(** The checks of [sendBulkSMS] that come before the configuration. *)
Definition validate (rq : BulkRequest) : Verdict :=
  match rq.(raw_recipients) with
  | Some (JArray items) =>
      if (length items =? 0)%nat
      then Refuse "Invalid request" "recipients must be a non-empty array"
      else if (1000 <? length items)%nat
      then Refuse "Too many recipients" "Maximum 1000 recipients per request"
      else check_recipients rq.(raw_template) items
  | _ => Refuse "Invalid request" "recipients must be a non-empty array"
  end.

(** A field documented as a string: the string, and the empty string for
    any falsy value, of which the handlers test the truthiness only. *)
Definition text (v : option Json) : option string :=
  if negb (truthy v) then Some ""
  else match v with
       | Some (JString s) => Some s
       | _ => None
       end.

Fixpoint strings (items : list Json) : option (list string) :=
  match items with
  | [] => Some []
  | JString s :: rest =>
      match strings rest with
      | Some l => Some (s :: l)
      | None => None
      end
  | _ :: _ => None
  end.

(** [recipient.templateVars || []], documented as an array of strings. *)
Definition texts (v : option Json) : option (list string) :=
  if negb (truthy v) then Some []
  else match v with
       | Some (JArray items) => strings items
       | _ => None
       end.

Definition recipient (v : Json) : option Recipient :=
  match v with
  | JObject _ =>
      match text (property v "phone"), text (property v "message"),
            texts (property v "templateVars") with
      | Some p, Some m, Some vars =>
          Some {| phone := p; message := m; templateVars := vars |}
      | _, _, _ => None
      end
  | _ => None
  end.

Fixpoint recipients_of (items : list Json) : option (list Recipient) :=
  match items with
  | [] => Some []
  | v :: rest =>
      match recipient v, recipients_of rest with
      | Some r, Some rs => Some (r :: rs)
      | _, _ => None
      end
  end.

(** The body with its documented types, when it has them. *)
Definition decode (rq : BulkRequest) : option BulkBody :=
  match text rq.(raw_template), text rq.(raw_templateid) with
  | Some t, Some id =>
      match rq.(raw_recipients) with
      | Some (JArray items) =>
          match recipients_of items with
          | Some rs =>
              Some {| template := t; templateid := id; recipients := Some rs |}
          | None => None
          end
      | _ => Some {| template := t; templateid := id; recipients := None |}
      end
  | _, _ => None
  end.

(** [sendBulkSMS(req, res, next)] on the parsed body.  [None]: the request
    has passed the validation and the configuration check with a field
    that has not its documented type; what follows is not described. *)
Definition sendBulkSMS (env : Env) (auth : result string) (gateway : Gateway)
    (rq : BulkRequest) : option (Reply * list Effect) :=
  match validate rq with
  | Refuse error message => Some (BadRequest error message, [])
  | Raise message => Some (NextError message, [])
  | Pass =>
      if negb (Str.truthy env.(PRAGATI_API_BASE_URL))
         || negb (Str.truthy env.(SMS_SENDER_ID))
         || negb (truthy rq.(raw_templateid))
      then Some (NextError configuration_incomplete, [])
      else match decode rq with
           | Some body => Some (sendBulkSMS env auth gateway body)
           | None => None
           end
  end.

(** The property [k] of an object literal. *)
Definition member (k : string) (v : option Json) : list (string * Json) :=
  match v with
  | Some x => [(k, x)]
  | None => []
  end.

(** [sendSingleSMS(req, res, next)] on the parsed body. *)
Definition sendSingleSMS (env : Env) (auth : result string) (gateway : Gateway)
    (rq : SingleRequest) : option (Reply * list Effect) :=
  let phone := rq.(raw_phone) in
  let message := rq.(raw_message) in
  if negb (truthy phone) || negb (truthy message)
  then Some (BadRequest "Invalid request" "phone and message are required", [])
  else match phone with
       | Some (JString s) =>
           if negb (validatePhoneNumber s)
           then Some (BadRequest "Invalid phone number"
                        "Phone number must be a valid 10-digit Indian mobile number",
                      [])
           else sendBulkSMS env auth gateway
                  {| raw_template := None;
                     raw_templateid := None;
                     raw_recipients :=
                       Some (JArray [ JObject (member "phone" phone
                                               ++ member "message" message) ]) |}
       | _ => Some (NextError replace_not_a_function, [])
       end.

(** A recipient the validation loop passes over. *)
Definition in_order (template : option Json) (recipient : Json) : bool :=
  match recipient with
  | JObject _ =>
      match property recipient "phone" with
      | Some (JString s) =>
          validatePhoneNumber s
          && (truthy (property recipient "message") || truthy template)
      | _ => false
      end
  | _ => false
  end.

(** Two recipients, the second with its phone given as a number. *)
Definition numeric_phone : BulkRequest :=
  {| raw_template := None;
     raw_templateid := Some (JString "1007384370833937775");
     raw_recipients :=
       Some (JArray [ JObject [ ("phone", JString "9876543210");
                                ("message", JString "hello") ];
                      JObject [ ("phone", JNumber true);
                                ("message", JString "hello") ] ]) |}.

(** A single message whose phone is given as a number. *)
Definition numeric_single : SingleRequest :=
  {| raw_phone := Some (JNumber true);
     raw_message := Some (JString "hello") |}.

End Wire.

Module Status.

(** The body sent by [getTokenStatus].  [valid] is [None] when it is the
    falsy [cachedToken.token] itself ([null] or the empty string);
    [expiresAt] is the instant that [toISOString] prints. *)
Record TokenStatus : Type := {
  valid : option bool;
  expiresIn : string;
  expiresAt : option Z
}.

(** The largest time value of a [Date]. *)
Definition MAX_TIME : Z := 8640000000000000.

(** Numbers are doubles.  An integer of magnitude at most [2 ^ 53] is a
    double; a larger one is rounded to the nearest integer that is one, a
    multiple of the power of two that leaves 53 significant bits, the tie
    going to the even significand.  This is what the subtraction of two
    integers yields. *)
Definition to_double (z : Z) : Z :=
  let e := (Z.log2 (Z.abs z) - 52)%Z in
  if (e <=? 0)%Z then z
  else
    let u := (2 ^ e)%Z in
    let q := (z / u)%Z in
    let r := (z mod u)%Z in
    if (2 * r <? u)%Z then (q * u)%Z
    else if (u <? 2 * r)%Z then ((q + 1) * u)%Z
    else if Z.even q then (q * u)%Z else ((q + 1) * u)%Z.

(** [`${Math.floor(expiresIn / 3600)}h ${Math.floor((expiresIn % 3600) / 60)}m`] *)
Definition hours_minutes (expiresIn : Z) : string :=
  Str.of_N (Z.to_N (expiresIn / 3600)) ++ "h "
  ++ Str.of_N (Z.to_N ((expiresIn mod 3600) / 60)) ++ "m".

(** [getTokenStatus(req, res)]; [now1] and [now2] are the two readings of
    [Date.now()], in the order in which they are made.  The readings and
    the expiry are time values, integers of magnitude at most [MAX_TIME]:
    their difference has magnitude below [2 ^ 54] and is rounded by
    [to_double]; the quotients that follow are below [2 ^ 44], where the
    floor of the rounded quotient is the floor of the exact one. *)
Definition getTokenStatus (cachedToken : Session.Credential) (now1 now2 : Z)
    : result TokenStatus :=
  let truthy := Str.truthy cachedToken.(Session.token) in
  let isValid := truthy && (now1 <? cachedToken.(Session.expiry))%Z in
  let expiresIn :=
    if isValid
    then (to_double (cachedToken.(Session.expiry) - now2) / 1000)%Z
    else 0%Z in
  let text := if (0 <? expiresIn)%Z then hours_minutes expiresIn else "expired" in
  let valid := if truthy then Some isValid else None in
  if isValid
  then if (Z.abs cachedToken.(Session.expiry) <=? MAX_TIME)%Z
       then Return {| valid := valid; expiresIn := text;
                      expiresAt := Some cachedToken.(Session.expiry) |}
       else Throw "Invalid time value"
  else Return {| valid := valid; expiresIn := text; expiresAt := None |}.

End Status.

(** ** Authentication (middleware/auth.js) and routing (routes/sms.js) *)

Module Auth.

(** The two headers the middleware reads; an absent header is the empty
    string, which the middleware does not tell apart. *)
Record Headers : Type := {
  x_api_key : string;
  authorization : string
}.

(** [s.replace(pat, '')] for a string pattern: the first occurrence of
    [pat] is removed. *)
Fixpoint remove_first (pat s : string) : string :=
  match Str.strip_prefix pat s with
  | Some rest => rest
  | None =>
      match s with
      | EmptyString => EmptyString
      | String c r => String c (remove_first pat r)
      end
  end.

Inductive Outcome : Type :=
| Next
| Respond (status : N) (error message : string).

(** [req.headers['x-api-key']
     || req.headers['authorization']?.replace('Bearer ', '')] *)
Definition presented_key (h : Headers) : string :=
  Str.or_else h.(x_api_key) (remove_first "Bearer " h.(authorization)).

(** [authenticate(req, res, next)]; [validKey] is [process.env.API_SECRET_KEY]. *)
Definition authenticate (validKey : string) (h : Headers) : Outcome :=
  let apiKey := presented_key h in
  if negb (Str.truthy validKey)
  then Respond 500 "Server configuration error" "API security not configured"
  else if negb (Str.truthy apiKey)
  then Respond 401 "Unauthorized"
         "API key required. Provide via X-API-Key header or Authorization: Bearer token"
  else if negb (String.eqb apiKey validKey)
  then Respond 403 "Forbidden" "Invalid API key"
  else Next.

End Auth.

Module Router.

Inductive Request : Type :=
| PostSend (body : BulkBody)
| PostSendSingle (body : SingleBody)
| GetTokenStatus.

Inductive Response : Type :=
| Denied (status : N) (error message : string)
| Sms (reply : Reply)
| TokenStatus (status : result Status.TokenStatus).

(** The router: [authenticate] first, then the handler of the route. *)
Definition handle (validKey : string) (env : Env) (auth : result string)
    (gateway : Gateway) (cachedToken : Session.Credential) (now1 now2 : Z)
    (h : Auth.Headers) (rq : Request) : Response * list Effect :=
  match Auth.authenticate validKey h with
  | Auth.Respond status error message => (Denied status error message, [])
  | Auth.Next =>
      match rq with
      | PostSend body =>
          let '(reply, effects) := sendBulkSMS env auth gateway body in
          (Sms reply, effects)
      | PostSendSingle body =>
          let '(reply, effects) := sendSingleSMS env auth gateway body in
          (Sms reply, effects)
      | GetTokenStatus =>
          (TokenStatus (Status.getTokenStatus cachedToken now1 now2), [])
      end
  end.

End Router.

(** ** The token cache over any schedule *)

Module Cache.


(** The refresh is suspended at one of its calls. *)
Definition pending (r : Session.Refresh) : bool :=
  match r with
  | Session.AwaitGenerate | Session.AwaitEnable _ => true
  | _ => false
  end.

Definition is_fulfilled (r : Session.Refresh) : bool :=
  match r with Session.Fulfilled _ => true | _ => false end.

(** The refresh is suspended at its generate call. *)
Definition at_generate (r : Session.Refresh) : bool :=
  match r with Session.AwaitGenerate => true | _ => false end.

(** The refresh has made its enable call. *)
Definition past_generate (r : Session.Refresh) : bool :=
  match r with
  | Session.AwaitEnable _ | Session.Fulfilled _ => true
  | _ => false
  end.

(** Two requests about to call while a valid credential is cached, and the
    state after both have called. *)
Definition holding_T1 : Session.State :=
  Session.init {| Session.token := "T1"; Session.expiry := 5000 |} 1000 2.

Definition both_served : Session.State :=
  {| Session.cachedToken := {| Session.token := "T1"; Session.expiry := 5000 |};
     Session.tokenRefreshPromise := None;
     Session.refreshes := [];
     Session.callers := [ Session.Returned "T1"; Session.Returned "T1" ];
     Session.now := 1300;
     Session.io := [] |}.

(** A refresh suspended at its enable call while a third request has not
    called yet. *)
Definition late_caller : Session.State :=
  {| Session.cachedToken := {| Session.token := "old"; Session.expiry := 500 |};
     Session.tokenRefreshPromise := Some 0%nat;
     Session.refreshes := [ Session.AwaitEnable "T1" ];
     Session.callers := [ Session.AwaitOwn 0; Session.AwaitOther 0; Session.Idle ];
     Session.now := 1000;
     Session.io := [ Session.Generate "old"; Session.Enable "T1" ] |}.

(** The bookkeeping kept by every event: one generate call per refresh,
    an enable call for every refresh past its generate call and for none
    still suspended there, one call of [saveTokenToDisk] per fulfilled
    refresh, and an occupied slot holds the refresh started last, still in
    flight. *)
Definition accounted (s : Session.State) : Prop :=
  Session.count_io Session.is_generate s = length s.(Session.refreshes)
  /\ Session.count_io Session.is_enable s
     + length (List.filter at_generate s.(Session.refreshes))
     <= length s.(Session.refreshes)
  /\ length (List.filter past_generate s.(Session.refreshes))
     <= Session.count_io Session.is_enable s
  /\ Session.count_io Session.is_disk_write s
     = length (List.filter is_fulfilled s.(Session.refreshes))
  /\ forall p, s.(Session.tokenRefreshPromise) = Some p ->
       S p = length s.(Session.refreshes)
       /\ exists r, s.(Session.refreshes) !! p = Some r /\ pending r = true.

End Cache.

(** * Properties *)

(** ** Phone numbers *)

Lemma strip_non_digits_all_digits (s : string) :
  Str.all_chars Str.is_digit (Str.strip_non_digits s) = true.
Proof.
  induction s as [|c r IH]; simpl; [reflexivity|].
  destruct (Str.is_digit c) eqn:Hc; simpl; [rewrite Hc|]; assumption.
Qed.

Lemma first_digit_6_to_9 (c : ascii) :
  (54 <=? nat_of_ascii c)%nat && (nat_of_ascii c <=? 57)%nat = true
  <-> (c = "6" \/ c = "7" \/ c = "8" \/ c = "9")%char.
Proof.
  split.
  - destruct c as [[] [] [] [] [] [] [] []]; vm_compute; intros H;
      solve [discriminate H | tauto].
  - intros [-> | [-> | [-> | ->]]]; reflexivity.
Qed.

Lemma indian_mobile_spec (s : string) :
  Str.all_chars Str.is_digit s = true ->
  indian_mobile s = true <-> ten_digits_first_6_to_9 s.
Proof.
  intros Hd. unfold ten_digits_first_6_to_9.
  destruct s as [|c r].
  - split; [discriminate | intros [H _]; discriminate H].
  - unfold indian_mobile. cbv zeta.
    cbn [Str.all_chars] in Hd. apply andb_true_iff in Hd as [_ Hr]. rewrite Hr.
    rewrite andb_true_r. rewrite andb_true_iff, first_digit_6_to_9, Nat.eqb_eq.
    cbn [String.length].
    split.
    + intros [Hc Hl]. split; [lia|]. exists c, r. split; [reflexivity | exact Hc].
    + intros [Hl (c' & r' & Heq & Hc)]. injection Heq as -> ->.
      split; [exact Hc | lia].
Qed.

Lemma strip_prefix_spec (p s r : string) :
  Str.strip_prefix p s = Some r <-> s = (p ++ r)%string.
Proof.
  revert s. induction p as [|a p IH]; intros s; cbn [Str.strip_prefix String.append].
  - split; congruence.
  - destruct s as [|b s].
    + split; discriminate.
    + destruct (Ascii.eqb_spec a b) as [<-|Hne].
      * rewrite IH. split; congruence.
      * split; [discriminate | congruence].
Qed.

Lemma starts_with_spec (p s : string) :
  Str.starts_with p s = true <-> exists r, s = (p ++ r)%string.
Proof.
  unfold Str.starts_with.
  destruct (Str.strip_prefix p s) as [r|] eqn:E.
  - apply strip_prefix_spec in E. split; eauto.
  - split; [discriminate|]. intros [r Hr].
    apply strip_prefix_spec in Hr. congruence.
Qed.

(** C8, as the code has it.  A phone number is valid exactly when what is
    left of it after all non-digits are stripped is ten digits long and
    starts with 6, 7, 8 or 9.  ["98765"] and ["5876543210"] are not valid,
    and neither is ["+91 9876543210"], which keeps twelve digits.  The wire
    format is the stripped number, with ["91"] put in front exactly when
    the stripped number does not already start with it; ["+91 9876543210"]
    becomes ["919876543210"]. *)
Theorem validatePhoneNumber_ten_digits :
  (forall phone,
      Str.all_chars Str.is_digit (Str.strip_non_digits phone) = true
      /\ (validatePhoneNumber phone = true
          <-> ten_digits_first_6_to_9 (Str.strip_non_digits phone)))
  /\ validatePhoneNumber "98765" = false
  /\ validatePhoneNumber "5876543210" = false
  /\ validatePhoneNumber "+91 9876543210" = false
  /\ formatPhoneWithCountryCode "+91 9876543210" = "919876543210"
  /\ (forall phone,
         let cleaned := Str.strip_non_digits phone in
         ((exists r, cleaned = ("91" ++ r)%string) ->
          formatPhoneWithCountryCode phone = cleaned)
         /\ (~ (exists r, cleaned = ("91" ++ r)%string) ->
             formatPhoneWithCountryCode phone = ("91" ++ cleaned)%string)).
Proof.
  split.
  { intros phone. split; [apply strip_non_digits_all_digits|].
    unfold validatePhoneNumber.
    apply indian_mobile_spec, strip_non_digits_all_digits. }
  do 4 (split; [reflexivity|]).
  intros phone cleaned. unfold formatPhoneWithCountryCode. fold cleaned.
  split; intros H.
  - apply starts_with_spec in H. rewrite H. reflexivity.
  - destruct (Str.starts_with "91" cleaned) eqn:E; [|reflexivity].
    exfalso. apply H, starts_with_spec, E.
Qed.

(** C8 as the specification has it fails: ["+91 9876543210"] does not pass
    validation. *)
Lemma plus91_number_is_rejected :
  ~ (validatePhoneNumber "+91 9876543210" = true).
Proof. vm_compute. discriminate. Qed.

(** The equivalence of C8 at ["98765-43210"]. *)
Lemma validatePhoneNumber_ten_digits_witness :
  validatePhoneNumber "98765-43210" = true
  <-> ten_digits_first_6_to_9 (Str.strip_non_digits "98765-43210").
Proof.
  exact (proj2 (proj1 validatePhoneNumber_ten_digits "98765-43210")).
Defined.

(** ** The single-SMS endpoint *)

Lemma valid_phone_truthy (phone : string) :
  validatePhoneNumber phone = true -> Str.truthy phone = true.
Proof. destruct phone; [discriminate | reflexivity]. Qed.

(** C10.  For a valid phone and a non-empty message, [sendSingleSMS] hands
    the bulk handler the body [{ recipients: [{ phone, message }] }], which
    has no [templateid]; whatever the environment, the token outcome and
    the gateway, the handler passes "SMS configuration incomplete" to
    [next] and performs no effect: no token is requested and nothing is
    sent. *)
Theorem sendSingleSMS_configuration_incomplete
    (env : Env) (auth : result string) (gateway : Gateway) (body : SingleBody) :
  validatePhoneNumber body.(single_phone) = true ->
  Str.truthy body.(single_message) = true ->
  sendSingleSMS env auth gateway body
  = sendBulkSMS env auth gateway
      {| template := ""; templateid := "";
         recipients := Some [ {| phone := body.(single_phone);
                                 message := body.(single_message);
                                 templateVars := [] |} ] |}
  /\ sendSingleSMS env auth gateway body
     = (NextError "SMS configuration incomplete", []).
Proof.
  intros Hphone Hmsg.
  assert (Hdel : sendSingleSMS env auth gateway body
                 = sendBulkSMS env auth gateway
                     {| template := ""; templateid := "";
                        recipients := Some [ {| phone := body.(single_phone);
                                                message := body.(single_message);
                                                templateVars := [] |} ] |}).
  { unfold sendSingleSMS.
    rewrite (valid_phone_truthy _ Hphone), Hmsg, Hphone. reflexivity. }
  split; [exact Hdel|]. rewrite Hdel.
  unfold sendBulkSMS.
  cbn [recipients template templateid length Nat.ltb Nat.leb validate_recipients
       phone message].
  rewrite (valid_phone_truthy _ Hphone), Hphone, Hmsg.
  cbn [negb orb andb Str.truthy].
  rewrite !orb_true_r. reflexivity.
Qed.

Lemma sendSingleSMS_configuration_incomplete_witness :
  sendSingleSMS
    {| PRAGATI_API_BASE_URL := "https://gateway.example/smpp";
       PRAGATI_API_KEY := "key"; SMS_SENDER_ID := "JAINUN" |}
    (Return "token") (fun _ _ => Responded 200 "guid=G1&errorcode=0&seqno=1")
    {| single_phone := "9876543210"; single_message := "hello" |}
  = (NextError "SMS configuration incomplete", []).
Proof.
  apply (sendSingleSMS_configuration_incomplete _ _ _
           {| single_phone := "9876543210"; single_message := "hello" |});
    reflexivity.
Defined.

(** ** A valid cached token *)

(** C3.  When the cached token is present and its expiry lies strictly
    after the current time, a call of [getAuthToken] returns the cached
    token in the same stretch of execution in which it was called, without
    awaiting anything: no gateway call is made, nothing is written to disk,
    and the cache, the promise slot and the refresh operations are as they
    were. *)
Theorem getAuthToken_cached (env : Env) (s : Session.State) (i : nat) :
  s.(Session.callers) !! i = Some Session.Idle ->
  s.(Session.cachedToken).(Session.token) <> "" ->
  (s.(Session.now) < s.(Session.cachedToken).(Session.expiry))%Z ->
  exists s',
    Session.step env (Session.Call i) s = Some s'
    /\ s'.(Session.callers) !! i
       = Some (Session.Returned s.(Session.cachedToken).(Session.token))
    /\ s'.(Session.io) = s.(Session.io)
    /\ s'.(Session.cachedToken) = s.(Session.cachedToken)
    /\ s'.(Session.tokenRefreshPromise) = s.(Session.tokenRefreshPromise)
    /\ s'.(Session.refreshes) = s.(Session.refreshes).
Proof.
  intros Hi Htok Hnow.
  assert (Hv : Session.valid s.(Session.cachedToken) s.(Session.now) = true).
  { unfold Session.valid. apply andb_true_iff. split.
    - destruct (Session.token (Session.cachedToken s)); [congruence | reflexivity].
    - apply Z.ltb_lt, Hnow. }
  eexists. unfold Session.step, Session.getAuthToken. rewrite Hi, Hv.
  split; [reflexivity|]. cbn.
  split; [|auto].
  apply list_lookup_insert_eq. eapply lookup_lt_Some, Hi.
Qed.

Lemma getAuthToken_cached_witness :
  exists s',
    Session.step
      {| PRAGATI_API_BASE_URL := "https://gateway.example/smpp";
         PRAGATI_API_KEY := "key"; SMS_SENDER_ID := "JAINUN" |}
      (Session.Call 0)
      (Session.init {| Session.token := "tok"; Session.expiry := 1000 |} 999 1)
    = Some s'
    /\ s'.(Session.callers) !! 0%nat = Some (Session.Returned "tok")
    /\ s'.(Session.io) = []
    /\ s'.(Session.cachedToken) = {| Session.token := "tok"; Session.expiry := 1000 |}
    /\ s'.(Session.tokenRefreshPromise) = None
    /\ s'.(Session.refreshes) = [].
Proof.
  apply (getAuthToken_cached _
           (Session.init {| Session.token := "tok"; Session.expiry := 1000 |} 999 1) 0).
  - reflexivity.
  - discriminate.
  - reflexivity.
Defined.

(** ** The gateway's response *)

Lemma until_amp_no_amp (s : string) :
  Str.all_chars (fun c => negb (Ascii.eqb c "&")) (until_amp s) = true.
Proof.
  induction s as [|c r IH]; [reflexivity|].
  cbn [until_amp]. destruct (Ascii.eqb c "&") eqn:E; [reflexivity|].
  cbn [Str.all_chars]. rewrite E. exact IH.
Qed.

Lemma until_amp_prefix (s : string) :
  exists rest, s = (until_amp s ++ rest)%string
               /\ (rest = "" \/ exists rest', rest = String "&" rest').
Proof.
  induction s as [|c r (rest & Hr & Hrest)].
  - exists "". split; [reflexivity | left; reflexivity].
  - cbn [until_amp]. destruct (Ascii.eqb_spec c "&") as [->|Hne].
    + exists (String "&" r). split; [reflexivity|]. right. eauto.
    + exists rest. split; [|exact Hrest]. cbn [String.append]. congruence.
Qed.

(** What [match_field] finds is a non-empty run of characters other than
    [&] that follows an occurrence of the key and stops at a [&] or at the
    end of the text. *)
Lemma match_field_Some (key s v : string) :
  match_field key s = Some v ->
  v <> ""
  /\ Str.all_chars (fun c => negb (Ascii.eqb c "&")) v = true
  /\ exists before rest,
       s = (before ++ key ++ v ++ rest)%string
       /\ (rest = "" \/ exists rest', rest = String "&" rest').
Proof.
  induction s as [|c r IH]; [discriminate|].
  cbn [match_field].
  assert (Hrec : match_field key r = Some v ->
                 v <> "" /\ Str.all_chars (fun c => negb (Ascii.eqb c "&")) v = true
                 /\ exists before rest,
                      String c r = (before ++ key ++ v ++ rest)%string
                      /\ (rest = "" \/ exists rest', rest = String "&" rest')).
  { intros H. destruct (IH H) as (Hv & Ha & before & rest & Heq & Hrest).
    split; [exact Hv|]. split; [exact Ha|].
    exists (String c before), rest. split; [|exact Hrest].
    cbn [String.append]. congruence. }
  destruct (Str.strip_prefix key (String c r)) as [after|] eqn:E; [|exact Hrec].
  destruct (until_amp after) as [|a w] eqn:Ew; [exact Hrec|].
  intros [= <-]. split; [discriminate|]. split.
  - rewrite <- Ew. apply until_amp_no_amp.
  - apply strip_prefix_spec in E.
    destruct (until_amp_prefix after) as (rest & Hafter & Hrest).
    exists "", rest. split; [|exact Hrest].
    cbn [String.append]. rewrite E, Hafter, Ew. reflexivity.
Qed.

Lemma split_comma_nonempty (s : string) : split_comma s <> [].
Proof.
  destruct s as [|c r]; cbn [split_comma]; [discriminate|].
  destruct (Ascii.eqb c ","); [discriminate|].
  destruct (split_comma r); discriminate.
Qed.

Lemma parsePragatiResponse_unfold (responseText : string) (n : nat) :
  parsePragatiResponse responseText n
  = imap (parsed_result (match_field "guid=" responseText) (seqnos_of responseText))
         (error_codes_of responseText).
Proof.
  unfold parsePragatiResponse, error_codes_of, seqnos_of.
  destruct (match_field "errorcode=" responseText); reflexivity.
Qed.

Lemma parsePragatiResponse_length (responseText : string) (n : nat) :
  length (parsePragatiResponse responseText n)
  = length (error_codes_of responseText).
Proof. rewrite parsePragatiResponse_unfold. apply length_imap. Qed.

Lemma parsePragatiResponse_nonempty (responseText : string) (n : nat) :
  exists first rest, parsePragatiResponse responseText n = first :: rest.
Proof.
  rewrite parsePragatiResponse_unfold.
  assert (H : error_codes_of responseText <> []).
  { unfold error_codes_of.
    destruct (match_field "errorcode=" responseText);
      [apply split_comma_nonempty | discriminate]. }
  destruct (error_codes_of responseText) as [|c r]; [congruence|].
  cbn [imap]. eauto.
Qed.

Lemma own_In {V} (o : JsObject.obj V) (k : string) (v : V) :
  JsObject.own o k = Some v -> In (k, v) o.
Proof.
  induction o as [|[k' v'] o IH]; cbn [JsObject.own]; [discriminate|].
  destruct (String.eqb_spec k k') as [->|Hne].
  - intros [= ->]. left. reflexivity.
  - intros H. right. exact (IH H).
Qed.

Lemma errorMessages_truthy (code m : string) :
  JsObject.own errorMessages code = Some m -> Str.truthy m = true.
Proof.
  intros H. apply own_In in H.
  assert (HF : Forall (fun e => Str.truthy (snd e) = true) errorMessages).
  { unfold errorMessages. repeat constructor. }
  rewrite Forall_forall in HF. apply (HF (code, m)), list_elem_of_In, H.
Qed.

(** One result per error code, in order.  The result at position [i]
    carries the code at position [i] and the sequence number at position
    [i], if there is a non-empty one.  Code ["0"] is a success carrying the
    guid of the response.  Any other code is a failure without guid; its
    message is the entry of the table for the code, the synthesized
    "Unknown error code" message for a code that names neither an entry
    nor a member of [Object.prototype], and that member otherwise. *)
Lemma parsePragatiResponse_results (responseText : string) (n : nat) :
  let guid0 := match_field "guid=" responseText in
  let codes := error_codes_of responseText in
  let seqnos := seqnos_of responseText in
  length (parsePragatiResponse responseText n) = length codes
  /\ (match_field "errorcode=" responseText = None -> codes = [ "0" ])
  /\ (match_field "seqno=" responseText = None -> seqnos = [])
  /\ forall i code,
       codes !! i = Some code ->
       exists r,
         parsePragatiResponse responseText n !! i = Some r
         /\ r.(errorCode) = code
         /\ r.(seqno) = seqno_at seqnos i
         /\ (code = "0" ->
             r.(success) = true /\ r.(guid) = guid0 /\ r.(errorMessage) = None)
         /\ (code <> "0" ->
             r.(success) = false /\ r.(guid) = None
             /\ (forall m, JsObject.own errorMessages code = Some m ->
                           r.(errorMessage) = Some (Text m))
             /\ (JsObject.own errorMessages code = None ->
                 JsObject.is_prototype_member code = false ->
                 r.(errorMessage)
                 = Some (Text ("Unknown error code: " ++ code)%string))
             /\ (JsObject.own errorMessages code = None ->
                 JsObject.is_prototype_member code = true ->
                 r.(errorMessage) = Some (PrototypeMember code))).
Proof.
  intros guid0 codes seqnos.
  split; [apply parsePragatiResponse_length|].
  split; [intros H; unfold codes, error_codes_of; rewrite H; reflexivity|].
  split; [intros H; unfold seqnos, seqnos_of; rewrite H; reflexivity|].
  intros i code Hi. rewrite parsePragatiResponse_unfold.
  exists (parsed_result guid0 seqnos i code).
  split; [rewrite list_lookup_imap; fold codes; rewrite Hi; reflexivity|].
  split; [reflexivity|]. split; [reflexivity|]. split.
  - intros ->. repeat split.
  - intros Hne. apply String.eqb_neq in Hne.
    unfold parsed_result. cbn [success guid errorMessage]. rewrite Hne.
    cbn [negb]. split; [reflexivity|]. split; [reflexivity|].
    unfold error_message_of, JsObject.get.
    repeat split.
    + intros m Hm. rewrite Hm.
      rewrite (errorMessages_truthy _ _ Hm). reflexivity.
    + intros Ho Hp. rewrite Ho, Hp. reflexivity.
    + intros Ho Hp. rewrite Ho, Hp. reflexivity.
Qed.

(** C5 at a response whose error code names a member of
    [Object.prototype]: the code is not in the table, and the result
    carries the inherited member instead of the synthesized "Unknown error
    code" message. *)
Theorem parsePragatiResponse_inherited_code :
  parsePragatiResponse "guid=G1&errorcode=0,constructor&seqno=911,912" 2
  = [ {| success := true; guid := Some "G1"; errorCode := "0";
         errorMessage := None; seqno := Some "911" |};
      {| success := false; guid := None; errorCode := "constructor";
         errorMessage := Some (PrototypeMember "constructor");
         seqno := Some "912" |} ]
  /\ JsObject.own errorMessages "constructor" = None
  /\ error_message_of "constructor"
     <> Text ("Unknown error code: " ++ "constructor")%string.
Proof.
  split; [reflexivity|]. split; [reflexivity|]. vm_compute. discriminate.
Qed.

(** The example of the specification. *)
Example parsePragatiResponse_example :
  parsePragatiResponse "guid=G1&errorcode=0,7,0&seqno=911,912,913" 3
  = [ {| success := true; guid := Some "G1"; errorCode := "0";
         errorMessage := None; seqno := Some "911" |};
      {| success := false; guid := None; errorCode := "7";
         errorMessage := Some (Text "Credit Expired - Account balance is zero");
         seqno := Some "912" |};
      {| success := true; guid := Some "G1"; errorCode := "0";
         errorMessage := None; seqno := Some "913" |} ].
Proof. reflexivity. Qed.

(** ** Dispatch *)










(** The three batches of the sample: the second fails, the other two are
    delivered. *)
Example second_batch_fails_alone :
  fst (sendBulkSMS Sample.env (Return "tok") Sample.second_throws
         (Sample.body Sample.three))
  = Json "Sent 2 SMS, 1 failed"
         {| total := 3; successful := 2; failed := 1 |}
         [ Delivered "9876543210" (Some "G1") (Some "1");
           BatchFailed "9876543211" "fetch failed";
           Delivered "9876543212" (Some "G1") (Some "1") ].
Proof. reflexivity. Qed.


(** Two codes for three members: the third member gets the first result. *)
Example short_response_replicates_first :
  batch_results
    [ Sample.recipient "9876543210" "x"; Sample.recipient "9876543211" "x";
      Sample.recipient "9876543212" "x" ]
    (Responded 200 "guid=G1&errorcode=7,0&seqno=911,912")
  = [ Refused "9876543210"
        (Some (Text "Credit Expired - Account balance is zero")) "7";
      Delivered "9876543211" (Some "G1") (Some "912");
      Refused "9876543212"
        (Some (Text "Credit Expired - Account balance is zero")) "7" ].
Proof. reflexivity. Qed.

(** C9 at a request with a single batch: after the only, hence final, send
    call the handler still waits 500 ms before it replies; one batch, one
    delay. *)
Theorem delay_after_final_batch :
  snd (sendBulkSMS Sample.env (Return "tok") Sample.accepting
         (Sample.body Sample.one))
  = [ GetAuthToken;
      Send 0 {| base_url := "https://gateway.example/smpp";
                to := "919876543210";
                from := "JAINUN";
                text := "hello";
                category := "bulk";
                dlt_templateid := "1007384370833937775";
                bearer := "tok" |};
      Delay 500 ].
Proof. reflexivity. Qed.

(** ** Chunks of at most 100 *)





(** The loop ends by its own test: any fuel that covers the members still
    to be sliced gives the same chunks. *)
Lemma chunk_loop_enough {A} (fuel fuel' i : nat) (group : list A) :
  length group - i <= fuel -> length group - i <= fuel' ->
  chunk_loop fuel i group = chunk_loop fuel' i group.
Proof.
  revert fuel' i. induction fuel as [|fuel IH]; intros [|fuel'] i H H';
    cbn [chunk_loop]; destruct (Nat.ltb_spec i (length group)); try lia;
    try reflexivity.
  f_equal. apply IH; lia.
Qed.


(** ** The order of [Object.entries] *)





(** ** Grouping by resolved text *)






























(** The 250 recipients of the sample: batches of 100, 100 and 50. *)
Example two_hundred_fifty_sizes :
  match make_batches "" Sample.two_hundred_fifty with
  | Return bs => map (fun b => length b.(members)) bs
  | Throw _ => []
  end = [ 100; 100; 50 ].
Proof. vm_compute. reflexivity. Qed.

(** A text that names a member of [Object.prototype] makes the grouping
    loop throw, and the request ends in [next]. *)
Example inherited_text_throws :
  sendBulkSMS Sample.env (Return "tok") Sample.accepting
    (Sample.body [ Sample.recipient "9876543210" "constructor" ])
  = (NextError "groupedByMessage[messageText].push is not a function",
     [ GetAuthToken ]).
Proof. reflexivity. Qed.

(** ** The token cache *)

Section SingleRefresh.

Import Session.

Variable env : Env.
Variable c0 : Credential.
Variable t0 : Z.

Hypothesis base_url_set : Str.truthy env.(PRAGATI_API_BASE_URL) = true.
Hypothesis api_key_set : Str.truthy env.(PRAGATI_API_KEY) = true.
Hypothesis nothing_valid : valid c0 t0 = false.

Lemma valid_later (t : Z) : (t0 <= t)%Z -> valid c0 t = false.
Proof.
  revert nothing_valid. unfold valid. intros H Ht.
  apply andb_false_iff in H as [H|H]; [rewrite H; reflexivity|].
  apply andb_false_iff. right. apply Z.ltb_ge. apply Z.ltb_ge in H. lia.
Qed.

Lemma start_refresh_configured (i : nat) (s : State) :
  start_refresh env i s
  = {| cachedToken := s.(cachedToken);
       tokenRefreshPromise := Some (length s.(refreshes));
       refreshes := s.(refreshes) ++ [AwaitGenerate];
       callers := <[i := AwaitOwn (length s.(refreshes))]> s.(callers);
       now := s.(now);
       io := s.(io) ++ [Generate (Str.or_else s.(cachedToken).(token) "")] |}.
Proof.
  unfold start_refresh. rewrite base_url_set, api_key_set. reflexivity.
Qed.













(** While the refresh is suspended, the requests that call wait for it. *)
Lemma run_calls_wait (refs : list Refresh) (log : list IO) (t : Z)
    (k : nat) (pre : list Caller) :
  (t0 <= t)%Z ->
  run env (map Call (seq (length pre) k))
    {| cachedToken := c0; tokenRefreshPromise := Some 0%nat; refreshes := refs;
       callers := pre ++ replicate k Idle; now := t; io := log |}
  = Some {| cachedToken := c0; tokenRefreshPromise := Some 0%nat;
            refreshes := refs;
            callers := pre ++ replicate k (AwaitOther 0); now := t; io := log |}.
Proof.
  intros Ht. revert pre. induction k as [|k IH]; intros pre; [reflexivity|].
  cbn [seq map run step callers replicate].
  rewrite list_lookup_middle by reflexivity.
  unfold getAuthToken. cbn [cachedToken now tokenRefreshPromise].
  rewrite (valid_later t Ht). unfold set_caller. cbn.
  rewrite insert_app_r_alt, Nat.sub_diag by lia. cbn [insert list_insert].
  specialize (IH (pre ++ [AwaitOther 0])).
  rewrite length_app, Nat.add_1_r, <- !app_assoc in IH. exact IH.
Qed.

(** Once the token is published, the callers that waited return it. *)
Lemma run_resumes_return (tok : string) (ts t : Z) (log : list IO)
    (rest pre : list Caller) :
  Str.truthy tok = true -> (t < ts + SIX_DAYS)%Z ->
  Forall (fun c => c = AwaitOwn 0 \/ c = AwaitOther 0) rest ->
  run env (map Resume (seq (length pre) (length rest)))
    {| cachedToken := {| token := tok; expiry := ts + SIX_DAYS |};
       tokenRefreshPromise := None; refreshes := [Fulfilled tok];
       callers := pre ++ rest; now := t; io := log |}
  = Some {| cachedToken := {| token := tok; expiry := ts + SIX_DAYS |};
            tokenRefreshPromise := None; refreshes := [Fulfilled tok];
            callers := pre ++ replicate (length rest) (Returned tok);
            now := t; io := log |}.
Proof.
  intros Htok Ht Hrest. revert pre.
  induction Hrest as [|c rest Hc _ IH]; intros pre; [reflexivity|].
  assert (Hv : valid {| token := tok; expiry := ts + SIX_DAYS |} t = true).
  { unfold valid. cbn. rewrite Htok. apply Z.ltb_lt, Ht. }
  cbn [length seq map run step callers replicate].
  rewrite list_lookup_middle by reflexivity.
  specialize (IH (pre ++ [Returned tok])).
  rewrite length_app, Nat.add_1_r, <- !app_assoc in IH.
  destruct Hc as [-> | ->]; cbn [refreshes lookup list_lookup cachedToken now];
    rewrite ?Hv; unfold set_caller; cbn;
    rewrite insert_app_r_alt, Nat.sub_diag by lia;
    cbn [insert list_insert]; exact IH.
Qed.

Lemma concurrent_calls (j k : nat) (es : list Event) :
  concurrent (map Call (seq j k) ++ es) = concurrent es.
Proof. revert j. induction k as [|k IH]; intros j; [reflexivity | apply IH]. Qed.

Lemma resumes_no_call (j k : nat) :
  forallb (fun e => negb (is_call e)) (map Resume (seq j k)) = true.
Proof. revert j. induction k as [|k IH]; intros j; [reflexivity | apply IH]. Qed.

Lemma calls_accepted (j k : nat) : replies_accepted (map Call (seq j k)) = true.
Proof. revert j. induction k as [|k IH]; intros j; [reflexivity | apply IH]. Qed.

Lemma resumes_accepted (j k : nat) :
  replies_accepted (map Resume (seq j k)) = true.
Proof. revert j. induction k as [|k IH]; intros j; [reflexivity | apply IH]. Qed.

(** For every number of callers there is a schedule of concurrent calls
    and accepted replies that answers every caller with the new token,
    and it takes no time. *)
Lemma serve_all_returns (n : nat) (tok : string) :
  0 < n -> Str.truthy tok = true ->
  concurrent (serve_all n tok) = true
  /\ replies_accepted (serve_all n tok) = true
  /\ run env (serve_all n tok) (init c0 t0 n)
     = Some {| cachedToken := {| token := tok; expiry := t0 + SIX_DAYS |};
               tokenRefreshPromise := None;
               refreshes := [Fulfilled tok];
               callers := replicate n (Returned tok);
               now := t0;
               io := [Generate (old_token c0); Enable tok;
                      DiskWrite {| token := tok; expiry := t0 + SIX_DAYS |}] |}.
Proof.
  intros Hn Htok. destruct n as [|m]; [lia|]. unfold serve_all.
  split.
  { rewrite concurrent_calls. cbn. rewrite Htok. cbn. apply resumes_no_call. }
  split.
  { unfold replies_accepted. rewrite !forallb_app.
    fold (replies_accepted (map Call (seq 0 (S m)))).
    fold (replies_accepted (map Resume (seq 0 (S m)))).
    rewrite calls_accepted, resumes_accepted.
    cbn [forallb accepted_generate accepted_enable generate_fails enable_fails].
    rewrite Htok. reflexivity. }
  assert (Hrun : forall es1 es2 s s1 s2,
            run env es1 s = Some s1 -> run env es2 s1 = Some s2 ->
            run env (es1 ++ es2) s = Some s2).
  { induction es1 as [|e es1 IH]; intros es2 s s1 s2; cbn [run app].
    - intros [= ->]. auto.
    - destruct (step env e s); [apply IH | discriminate]. }
  eapply Hrun.
  { (* the calls *)
    unfold init. cbn [seq map run step callers replicate lookup list_lookup].
    unfold getAuthToken. cbn [cachedToken now tokenRefreshPromise].
    rewrite (valid_later t0) by lia. rewrite start_refresh_configured. cbn.
    apply (run_calls_wait [AwaitGenerate] _ t0 m [AwaitOwn 0]). lia. }
  eapply Hrun.
  { (* the replies *)
    cbn. rewrite Htok. cbn. reflexivity. }
  (* the resumptions *)
  pose proof (run_resumes_return tok t0 t0
                [Generate (Str.or_else (token c0) ""); Enable tok;
                 DiskWrite {| token := tok; expiry := t0 + SIX_DAYS |}]
                (AwaitOwn 0 :: replicate m (AwaitOther 0)) [] Htok) as H.
  cbn [length app] in H. rewrite length_replicate in H.
  unfold saveTokenToDisk. cbn [app]. apply H.
  - unfold SIX_DAYS. lia.
  - constructor; [left; reflexivity|].
    apply Forall_replicate. right. reflexivity.
Qed.

End SingleRefresh.







(** C2.  When the reply to the generate call or to the enable call of a
    refresh makes it throw: the promise of that refresh is rejected with
    the error, the promise slot is cleared, and the cached credential, the
    snapshot on disk and every other effect are as they were before the
    reply; every caller awaiting that promise, its owner as well as those
    that found it in the slot, is resumed with the same error thrown, again
    without change to the cache.  More generally no event other than an
    accepted enable reply changes the cached credential or writes the
    snapshot, so a refresh that fails has not touched them at any point
    since it began. *)
Theorem refresh_failure_keeps_cache (env : Env) (s : Session.State)
    (e : Session.Event) (p : nat) :
  Session.failing_reply s e = Some p ->
  exists s' m,
    Session.step env e s = Some s'
    /\ s'.(Session.refreshes) !! p = Some (Session.Rejected m)
    /\ s'.(Session.tokenRefreshPromise) = None
    /\ s'.(Session.cachedToken) = s.(Session.cachedToken)
    /\ s'.(Session.io) = s.(Session.io)
    /\ s'.(Session.callers) = s.(Session.callers)
    /\ (forall t i,
           t.(Session.refreshes) !! p = Some (Session.Rejected m) ->
           t.(Session.callers) !! i = Some (Session.AwaitOwn p)
           \/ t.(Session.callers) !! i = Some (Session.AwaitOther p) ->
           exists t',
             Session.step env (Session.Resume i) t = Some t'
             /\ t'.(Session.callers) !! i = Some (Session.Thrown m)
             /\ t'.(Session.cachedToken) = t.(Session.cachedToken)
             /\ t'.(Session.io) = t.(Session.io))
    /\ (forall e0 s0 s1,
           Session.step env e0 s0 = Some s1 ->
           Session.enable_accepted e0 = false ->
           s1.(Session.cachedToken) = s0.(Session.cachedToken)
           /\ List.filter Session.is_disk_write s1.(Session.io)
              = List.filter Session.is_disk_write s0.(Session.io)).
Proof.
  intros Hfail.
  assert (Hrej : exists m, Session.step env e s = Some (Session.reject p m s)).
  { unfold Session.failing_reply in Hfail. unfold Session.step.
    destruct e as [i|q r|q r|i|ms]; try discriminate.
    - destruct (Session.refreshes s !! q) as [[]|]; try discriminate.
      destruct (Session.generate_fails r) eqn:Hr; [|discriminate].
      injection Hfail as ->. unfold Session.on_generate.
      unfold Session.generate_fails in Hr.
      destruct r as [m|status bodyText json]; [eauto|].
      destruct (http_ok status) eqn:Hok; cbn [negb]; [|eauto].
      cbn [negb orb] in Hr.
      destruct json as [m|tok]; [eauto|]. rewrite Hr. eauto.
    - destruct (Session.refreshes s !! q) as [[]|]; try discriminate.
      destruct (Session.enable_fails r) eqn:Hr; [|discriminate].
      injection Hfail as ->. unfold Session.on_enable.
      unfold Session.enable_fails in Hr.
      destruct r as [m|status bodyText json]; [eauto|].
      rewrite Hr. eauto. }
  destruct Hrej as [m Hstep]. exists (Session.reject p m s), m.
  split; [exact Hstep|].
  assert (Hp : p < length s.(Session.refreshes)).
  { unfold Session.failing_reply in Hfail.
    destruct e as [i|q r|q r|i|ms]; try discriminate;
      destruct (Session.refreshes s !! q) as [x|] eqn:Hq; try discriminate;
      apply lookup_lt_Some in Hq; destruct x; try discriminate;
      destruct (_ r); try discriminate; injection Hfail as ->; exact Hq. }
  split; [cbn; apply list_lookup_insert_eq, Hp|].
  do 4 (split; [reflexivity|]).
  split.
  - intros t i Ht Hi.
    assert (Hlt : i < length t.(Session.callers)).
    { destruct Hi as [Hi|Hi]; apply lookup_lt_Some in Hi; exact Hi. }
    exists (Session.set_caller i (Session.Thrown m) t).
    split; [|split; [apply list_lookup_insert_eq, Hlt | split; reflexivity]].
    unfold Session.step. destruct Hi as [-> | ->]; rewrite Ht; reflexivity.
  - intros e0 s0 s1 H0 Hacc.
    unfold Session.step, Session.getAuthToken, Session.on_generate,
      Session.on_enable, Session.start_refresh in H0.
    unfold Session.enable_accepted, Session.enable_fails in Hacc.
    repeat case_match; simplify_eq; cbn in *; try discriminate;
      rewrite ?List.filter_app, ?app_nil_r; auto.
Qed.

Lemma refresh_failure_keeps_cache_witness :
  exists s' m,
    Session.step Sample.env Sample.enable_refused Sample.awaiting_enable = Some s'
    /\ s'.(Session.refreshes) !! 0 = Some (Session.Rejected m)
    /\ s'.(Session.tokenRefreshPromise) = None
    /\ s'.(Session.cachedToken) = Sample.awaiting_enable.(Session.cachedToken)
    /\ s'.(Session.io) = Sample.awaiting_enable.(Session.io)
    /\ s'.(Session.callers) = Sample.awaiting_enable.(Session.callers)
    /\ (forall t i,
           t.(Session.refreshes) !! 0 = Some (Session.Rejected m) ->
           t.(Session.callers) !! i = Some (Session.AwaitOwn 0)
           \/ t.(Session.callers) !! i = Some (Session.AwaitOther 0) ->
           exists t',
             Session.step Sample.env (Session.Resume i) t = Some t'
             /\ t'.(Session.callers) !! i = Some (Session.Thrown m)
             /\ t'.(Session.cachedToken) = t.(Session.cachedToken)
             /\ t'.(Session.io) = t.(Session.io))
    /\ (forall e0 s0 s1,
           Session.step Sample.env e0 s0 = Some s1 ->
           Session.enable_accepted e0 = false ->
           s1.(Session.cachedToken) = s0.(Session.cachedToken)
           /\ List.filter Session.is_disk_write s1.(Session.io)
              = List.filter Session.is_disk_write s0.(Session.io)).
Proof.
  apply (refresh_failure_keeps_cache Sample.env Sample.awaiting_enable
           Sample.enable_refused 0).
  reflexivity.
Defined.

(** The refresh of the sample state fails: its owner and its waiter both
    get the error, and the credential cached before is still cached. *)
Example refused_enable_run :
  Session.run Sample.env
    [ Sample.enable_refused; Session.Resume 1; Session.Resume 0 ]
    Sample.awaiting_enable
  = Some
      {| Session.cachedToken := {| Session.token := "old"; Session.expiry := 500 |};
         Session.tokenRefreshPromise := None;
         Session.refreshes := [ Session.Rejected "Failed to enable token: 503 down" ];
         Session.callers :=
           [ Session.Thrown "Failed to enable token: 503 down";
             Session.Thrown "Failed to enable token: 503 down" ];
         Session.now := 1000;
         Session.io := [ Session.Generate "old"; Session.Enable "T1" ] |}.
Proof. reflexivity. Qed.

(** * Further properties *)

(** ** Wire numbers *)

Lemma strip_digits_id (s : string) :
  Str.all_chars Str.is_digit s = true -> Str.strip_non_digits s = s.
Proof.
  induction s as [|c r IH]; cbn [Str.all_chars Str.strip_non_digits];
    [reflexivity|].
  intros H. apply andb_true_iff in H as [Hc Hr]. rewrite Hc, IH by exact Hr.
  reflexivity.
Qed.

Lemma formatted_all_digits (phone : string) :
  Str.all_chars Str.is_digit (formatPhoneWithCountryCode phone) = true.
Proof.
  unfold formatPhoneWithCountryCode.
  destruct (Str.starts_with "91" (Str.strip_non_digits phone)).
  - apply strip_non_digits_all_digits.
  - cbn [String.append Str.all_chars]. rewrite strip_non_digits_all_digits.
    reflexivity.
Qed.

Lemma formatted_starts_with_91 (phone : string) :
  Str.starts_with "91" (formatPhoneWithCountryCode phone) = true.
Proof.
  unfold formatPhoneWithCountryCode.
  destruct (Str.starts_with "91" (Str.strip_non_digits phone)) eqn:E;
    [exact E|].
  apply starts_with_spec. eauto.
Qed.

Lemma string_app_nil_r (a : string) : (a ++ "")%string = a.
Proof. induction a as [|c a IH]; cbn; [reflexivity | rewrite IH; reflexivity]. Qed.

Lemma string_app_assoc (a b c : string) :
  ((a ++ b) ++ c)%string = (a ++ b ++ c)%string.
Proof. induction a as [|x a IH]; cbn; [reflexivity | rewrite IH; reflexivity]. Qed.

Lemma string_length_app (a b : string) :
  String.length (a ++ b) = String.length a + String.length b.
Proof. induction a as [|c a IH]; cbn; [reflexivity | rewrite IH; reflexivity]. Qed.

(** X1.  The number put on the wire consists of digits only and starts
    with 91, and formatting it again changes nothing.  For a phone that
    passes validation it is the ten digits of the phone with 91 in front,
    twelve digits in all, unless the ten digits themselves begin with 91:
    such a phone goes out as its bare ten digits, without country code. *)
Theorem wire_number (phone : string) :
  let wire := formatPhoneWithCountryCode phone in
  let cleaned := Str.strip_non_digits phone in
  Str.all_chars Str.is_digit wire = true
  /\ (exists rest, wire = ("91" ++ rest)%string)
  /\ formatPhoneWithCountryCode wire = wire
  /\ (validatePhoneNumber phone = true ->
      (Str.starts_with "91" cleaned = false ->
       wire = ("91" ++ cleaned)%string /\ String.length wire = 12)
      /\ (Str.starts_with "91" cleaned = true ->
          wire = cleaned /\ String.length wire = 10)).
Proof.
  intros wire cleaned.
  split; [apply formatted_all_digits|].
  split; [apply starts_with_spec, formatted_starts_with_91|].
  split.
  { unfold formatPhoneWithCountryCode at 1. fold wire.
    rewrite (strip_digits_id wire) by apply formatted_all_digits.
    unfold wire. rewrite formatted_starts_with_91. reflexivity. }
  intros Hvalid. unfold validatePhoneNumber in Hvalid. fold cleaned in Hvalid.
  apply indian_mobile_spec in Hvalid; [|apply strip_non_digits_all_digits].
  destruct Hvalid as [Hlen _].
  unfold wire, formatPhoneWithCountryCode. fold cleaned.
  split; intros ->.
  - split; [reflexivity|]. rewrite string_length_app, Hlen. reflexivity.
  - split; [reflexivity | exact Hlen].
Qed.

Lemma wire_number_witness :
  formatPhoneWithCountryCode "91234 56789" = Str.strip_non_digits "91234 56789"
  /\ String.length (formatPhoneWithCountryCode "91234 56789") = 10.
Proof.
  refine (proj2 (proj2 (proj2 (proj2 (wire_number "91234 56789"))) _) _);
    reflexivity.
Defined.

(** ** Templates *)

Lemma replace_vars_plain (a rest : string) (vars : list string) :
  no_brace a = true ->
  replace_vars 0 (a ++ rest) vars = (a ++ replace_vars 0 rest vars)%string.
Proof.
  unfold no_brace. induction a as [|c a IH]; [reflexivity|].
  cbn [Str.all_chars String.append replace_vars]. intros H.
  apply andb_true_iff in H as [Hc Ha]. apply negb_true_iff in Hc.
  assert (Hs : Str.starts_with "{#var#}" (String c (a ++ rest)) = false).
  { unfold Str.starts_with. cbn [Str.strip_prefix].
    rewrite Ascii.eqb_sym, Hc. reflexivity. }
  rewrite Hs, IH by exact Ha. reflexivity.
Qed.

(** X2.  Text without an opening brace is copied as it is, and the
    placeholder that follows it takes the first of the values still
    unused, or nothing when the values have run out; the rest of the
    template goes on with the values that remain.  A template without any
    placeholder is returned unchanged, whatever the values. *)
Theorem applyTemplate_fills_in_order (a b : string) (vars : list string) :
  no_brace a = true ->
  applyTemplate (a ++ "{#var#}" ++ b) vars
  = (a ++ hd "" vars ++ applyTemplate b (tl vars))%string
  /\ applyTemplate a vars = a.
Proof.
  intros Ha. unfold applyTemplate. split.
  - rewrite (replace_vars_plain a _ vars Ha). f_equal.
    destruct vars as [|v vars']; reflexivity.
  - rewrite <- (string_app_nil_r a) at 1.
    rewrite (replace_vars_plain a "" vars Ha). cbn [replace_vars].
    apply string_app_nil_r.
Qed.

Lemma applyTemplate_fills_in_order_witness :
  applyTemplate ("Dear " ++ "{#var#}" ++ ", your code is {#var#}") ["Sam"; "123"]
  = ("Dear " ++ hd "" ["Sam"; "123"]
     ++ applyTemplate ", your code is {#var#}" (tl ["Sam"; "123"]))%string
  /\ applyTemplate "Dear " ["Sam"; "123"] = "Dear ".
Proof.
  apply (applyTemplate_fills_in_order "Dear " ", your code is {#var#}"
           ["Sam"; "123"]).
  reflexivity.
Defined.

(** ** Requests turned down *)

Lemma validate_recipients_offending (template : string) (rs : list Recipient) :
  match validate_recipients template rs with
  | None => existsb (offending template) rs = false
  | Some reply =>
      existsb (offending template) rs = true
      /\ exists e m, reply = BadRequest e m
  end.
Proof.
  induction rs as [|r rs IH]; cbn [validate_recipients existsb]; [reflexivity|].
  unfold offending at 1 3.
  destruct (validatePhoneNumber (phone r)) eqn:Hv.
  - rewrite (valid_phone_truthy _ Hv). cbn [negb orb].
    destruct (negb (Str.truthy (message r)) && negb (Str.truthy template));
      cbn [orb]; [eauto | exact IH].
  - rewrite orb_true_r. cbn [negb orb]. eauto.
Qed.

(** The loop passes over the recipients that are in order. *)
Lemma validate_recipients_first (template : string) (good rest : list Recipient)
    (r : Recipient) :
  existsb (offending template) good = false ->
  validate_recipients template (good ++ r :: rest)
  = validate_recipients template (r :: rest).
Proof.
  induction good as [|g good IH]; cbn [existsb app].
  - reflexivity.
  - intros H. apply orb_false_iff in H as [Hg Hgood].
    unfold offending in Hg. apply orb_false_iff in Hg as [Hp Hm].
    apply negb_false_iff in Hp.
    change (validate_recipients template (g :: good ++ r :: rest))
      with (if negb (Str.truthy g.(phone)) || negb (validatePhoneNumber g.(phone))
            then Some (BadRequest "Invalid phone number"
                         ("Invalid phone number: "
                          ++ Str.or_else g.(phone) "missing"))
            else if negb (Str.truthy g.(message)) && negb (Str.truthy template)
            then Some (BadRequest "Invalid recipient"
                         "Each recipient must have a message, or provide a template")
            else validate_recipients template (good ++ r :: rest)).
    rewrite (valid_phone_truthy _ Hp), Hp, Hm. cbn [negb orb]. exact (IH Hgood).
Qed.

(** The checks that come first in [sendBulkSMS], on a body with the
    documented types. *)
Lemma typed_request_checks (env : Env) (auth : result string)
    (gateway : Gateway) (body : BulkBody) :
  (malformed body = true ->
   exists e m, sendBulkSMS env auth gateway body = (BadRequest e m, []))
  /\ (malformed body = false ->
      forall e m, fst (sendBulkSMS env auth gateway body) <> BadRequest e m)
  /\ (forall rs, body.(recipients) = Some rs -> 1000 < length rs ->
        sendBulkSMS env auth gateway body
        = (BadRequest "Too many recipients" "Maximum 1000 recipients per request",
           []))
  /\ (forall good r rest,
        body.(recipients) = Some (good ++ r :: rest) ->
        length (good ++ r :: rest) <= 1000 ->
        existsb (offending body.(template)) good = false ->
        validatePhoneNumber r.(phone) = false ->
        sendBulkSMS env auth gateway body
        = (BadRequest "Invalid phone number"
             ("Invalid phone number: " ++ Str.or_else r.(phone) "missing"), [])).
Proof.
  unfold malformed, sendBulkSMS.
  split; [|split; [|split]].
  - destruct (recipients body) as [[|r rs]|]; [eauto| |eauto].
    cbn [length Nat.eqb orb].
    destruct (1000 <? S (length rs))%nat; [eauto|]. cbn [orb].
    pose proof (validate_recipients_offending (template body) (r :: rs)) as H.
    destruct (validate_recipients (template body) (r :: rs)) as [reply|].
    + destruct H as (_ & e & m & ->). eauto.
    + intros H'. congruence.
  - destruct (recipients body) as [[|r rs]|]; try discriminate.
    cbn [length Nat.eqb orb].
    destruct (1000 <? S (length rs))%nat; [discriminate|]. cbn [orb].
    pose proof (validate_recipients_offending (template body) (r :: rs)) as H.
    destruct (validate_recipients (template body) (r :: rs)) as [reply|].
    + destruct H as (H & _). congruence.
    + intros _ e m.
      destruct (negb _ || negb _ || negb _); [discriminate|].
      destruct auth as [token|m']; [|discriminate].
      destruct (make_batches (template body) (r :: rs)); [|discriminate].
      destruct (send_batches _ _ _ _ _ _). discriminate.
  - intros rs -> Hlen. destruct rs as [|r rs]; [cbn in Hlen; lia|].
    apply Nat.ltb_lt in Hlen. rewrite Hlen. reflexivity.
  - intros good r rest -> Hlen Hgood Hr.
    destruct (good ++ r :: rest) as [|x xs] eqn:E.
    { destruct good; discriminate. }
    apply Nat.leb_le in Hlen. rewrite Nat.ltb_antisym, Hlen. cbn [negb].
    rewrite <- E, (validate_recipients_first _ _ _ _ Hgood).
    cbn [validate_recipients]. rewrite Hr, orb_true_r. reflexivity.
Qed.

(** *** Bodies of any JSON *)

Lemma text_truthy (v : option Wire.Json) (s : string) :
  Wire.text v = Some s -> Str.truthy s = Wire.truthy v.
Proof.
  unfold Wire.text. destruct (Wire.truthy v) eqn:E; cbn [negb].
  - destruct v as [[]|]; try discriminate. intros [= <-]. exact E.
  - intros [= <-]. reflexivity.
Qed.

Lemma text_string (v : option Wire.Json) (s : string) :
  Wire.text v = Some s -> Wire.truthy v = true -> v = Some (Wire.JString s).
Proof.
  unfold Wire.text. intros H E. rewrite E in H. cbn [negb] in H.
  destruct v as [[]|]; try discriminate. injection H as <-. reflexivity.
Qed.

Lemma text_falsy (v : option Wire.Json) (s : string) :
  Wire.text v = Some s -> Wire.truthy v = false -> s = "".
Proof.
  unfold Wire.text. intros H E. rewrite E in H. cbn [negb] in H. congruence.
Qed.

(** On a recipient with the documented types the loop of [Wire] does what
    the loop on the typed body does. *)
Lemma check_recipient_decoded (template : option Wire.Json) (t : string)
    (v : Wire.Json) (r : Recipient) (rest : list Recipient) :
  Wire.text template = Some t ->
  Wire.recipient v = Some r ->
  match Wire.check_recipient template v with
  | Wire.Refuse e m => validate_recipients t (r :: rest) = Some (BadRequest e m)
  | Wire.Raise _ => False
  | Wire.Pass => validate_recipients t (r :: rest) = validate_recipients t rest
  end.
Proof.
  intros Ht Hr. destruct v as [| | | | |members]; try discriminate Hr.
  unfold Wire.recipient in Hr.
  destruct (Wire.text (Wire.property (Wire.JObject members) "phone"))
    as [p|] eqn:Hp; [|discriminate].
  destruct (Wire.text (Wire.property (Wire.JObject members) "message"))
    as [m|] eqn:Hm; [|discriminate].
  destruct (Wire.texts (Wire.property (Wire.JObject members) "templateVars"))
    as [vars|]; [|discriminate].
  injection Hr as <-.
  cbn [Wire.check_recipient validate_recipients phone message].
  rewrite (text_truthy _ _ Hp), (text_truthy _ _ Hm), (text_truthy _ _ Ht).
  destruct (Wire.truthy (Wire.property (Wire.JObject members) "phone")) eqn:E.
  - rewrite (text_string _ _ Hp E). cbn [negb orb].
    destruct (validatePhoneNumber p) eqn:Hv; cbn [negb].
    + destruct (negb (Wire.truthy (Wire.property (Wire.JObject members) "message"))
                && negb (Wire.truthy template)); reflexivity.
    + unfold Str.or_else. rewrite (text_truthy _ _ Hp), E. reflexivity.
  - rewrite (text_falsy _ _ Hp E). reflexivity.
Qed.

Lemma check_recipients_decoded (template : option Wire.Json) (t : string)
    (items : list Wire.Json) (rs : list Recipient) :
  Wire.text template = Some t ->
  Wire.recipients_of items = Some rs ->
  length rs = length items
  /\ match Wire.check_recipients template items with
     | Wire.Refuse e m => validate_recipients t rs = Some (BadRequest e m)
     | Wire.Raise _ => False
     | Wire.Pass => validate_recipients t rs = None
     end.
Proof.
  intros Ht. revert rs. induction items as [|v items IH]; intros rs;
    cbn [Wire.recipients_of Wire.check_recipients].
  - intros [= <-]. split; reflexivity.
  - destruct (Wire.recipient v) as [r|] eqn:Hr; [|discriminate].
    destruct (Wire.recipients_of items) as [rs'|]; [|discriminate].
    intros [= <-]. destruct (IH rs' eq_refl) as [Hlen IH'].
    split; [cbn [length]; rewrite Hlen; reflexivity|].
    pose proof (check_recipient_decoded template t v r rs' Ht Hr) as H.
    destruct (Wire.check_recipient template v); [exact H | exact H |].
    rewrite H. exact IH'.
Qed.

(** The handler on a body of any JSON is the handler on the typed body
    whenever the body has the documented types. *)
Lemma decoded_request (env : Env) (auth : result string) (gateway : Gateway)
    (rq : Wire.BulkRequest) (body : BulkBody) :
  Wire.decode rq = Some body ->
  Wire.sendBulkSMS env auth gateway rq = Some (sendBulkSMS env auth gateway body).
Proof.
  unfold Wire.decode.
  destruct (Wire.text (Wire.raw_template rq)) as [t|] eqn:Ht; [|discriminate].
  destruct (Wire.text (Wire.raw_templateid rq)) as [id|] eqn:Hid; [|discriminate].
  intros Hdec.
  assert (Hplain : (forall items, Wire.raw_recipients rq <> Some (Wire.JArray items)) ->
                   Some {| template := t; templateid := id; recipients := None |}
                   = Some body ->
                   Wire.sendBulkSMS env auth gateway rq
                   = Some (sendBulkSMS env auth gateway body)).
  { intros Hno [= <-]. unfold Wire.sendBulkSMS, Wire.validate.
    destruct (Wire.raw_recipients rq) as [[| | | |items|]|]; try reflexivity.
    destruct (Hno items eq_refl). }
  destruct (Wire.raw_recipients rq) as [[| | | |items|]|] eqn:Hrs;
    try (apply Hplain; [intros items'; discriminate | exact Hdec]).
  clear Hplain.
  destruct (Wire.recipients_of items) as [rs|] eqn:Hitems; [|discriminate].
  injection Hdec as <-.
  destruct (check_recipients_decoded _ t items rs Ht Hitems) as [Hlen Hcheck].
  assert (Hsame : Wire.decode rq
                  = Some {| template := t; templateid := id; recipients := Some rs |}).
  { unfold Wire.decode. rewrite Ht, Hid, Hrs, Hitems. reflexivity. }
  unfold Wire.sendBulkSMS, Wire.validate, sendBulkSMS. rewrite Hrs, Hsame.
  cbn [recipients template templateid]. rewrite <- Hlen.
  destruct rs as [|r rs]; [reflexivity|].
  cbn [length Nat.eqb].
  destruct (1000 <? S (length rs))%nat; [reflexivity|].
  destruct (Wire.check_recipients (Wire.raw_template rq) items);
    [rewrite Hcheck; reflexivity | destruct Hcheck |].
  rewrite Hcheck, (text_truthy _ _ Hid).
  destruct (negb _ || negb _ || negb _); reflexivity.
Qed.

Lemma in_order_pass (template : option Wire.Json) (r : Wire.Json) :
  Wire.in_order template r = true <-> Wire.check_recipient template r = Wire.Pass.
Proof.
  destruct r as [| | | | |members];
    try (split; [discriminate | cbn; discriminate]).
  unfold Wire.in_order, Wire.check_recipient.
  destruct (Wire.property (Wire.JObject members) "phone") as [[| | |s| |]|] eqn:Hp;
    try (split; [discriminate | destruct (negb _); discriminate]).
  cbn [Wire.truthy].
  destruct (validatePhoneNumber s) eqn:Hv.
  - rewrite (valid_phone_truthy _ Hv). cbn [negb andb].
    destruct (Wire.truthy (Wire.property (Wire.JObject members) "message"));
      destruct (Wire.truthy template); cbn; split; congruence.
  - cbn [andb negb]. split; [discriminate|].
    destruct (negb (Str.truthy s)); discriminate.
Qed.

Lemma check_recipients_first (template : option Wire.Json)
    (good rest : list Wire.Json) :
  forallb (Wire.in_order template) good = true ->
  Wire.check_recipients template (good ++ rest)
  = Wire.check_recipients template rest.
Proof.
  induction good as [|g good IH]; cbn [forallb app Wire.check_recipients];
    [reflexivity|].
  intros H. apply andb_true_iff in H as [Hg Hgood].
  apply in_order_pass in Hg. rewrite Hg. exact (IH Hgood).
Qed.

(** X3.  [sendBulkSMS] on a body of any JSON.  A request whose
    [recipients] is not an array, or is an empty one, or has more than
    1000 elements, is answered with a 400 reply; the size is checked
    before any recipient is looked at.  Otherwise the first recipient that
    is not in order decides: a [null] recipient, and a phone that is
    truthy without being a string, make the handler throw a TypeError,
    which is passed to [next]; a missing or falsy phone, a string that is
    not a valid number, and a recipient with neither a message nor a
    template to fall back on, get a 400 reply.  In all these cases nothing
    else happens: no token is requested and nothing is sent.  A request
    whose recipients are all in order gets no 400 reply.  On a body that
    has the documented types the handler is the handler on the typed
    body. *)
Theorem malformed_request_is_rejected (env : Env) (auth : result string)
    (gateway : Gateway) (rq : Wire.BulkRequest) :
  let reply := Wire.sendBulkSMS env auth gateway rq in
  let template := rq.(Wire.raw_template) in
  ((forall items, rq.(Wire.raw_recipients) <> Some (Wire.JArray items))
   \/ rq.(Wire.raw_recipients) = Some (Wire.JArray []) ->
   reply = Some (BadRequest "Invalid request"
                   "recipients must be a non-empty array", []))
  /\ (forall items,
        rq.(Wire.raw_recipients) = Some (Wire.JArray items) ->
        1000 < length items ->
        reply = Some (BadRequest "Too many recipients"
                        "Maximum 1000 recipients per request", []))
  /\ (forall good r rest,
        rq.(Wire.raw_recipients) = Some (Wire.JArray (good ++ r :: rest)) ->
        length (good ++ r :: rest) <= 1000 ->
        forallb (Wire.in_order template) good = true ->
        Wire.in_order template r = false ->
        exists answer,
          reply = Some (answer, [])
          /\ (r = Wire.JNull -> answer = NextError Wire.reading_phone_of_null)
          /\ (r <> Wire.JNull ->
              Wire.truthy (Wire.property r "phone") = false ->
              answer = BadRequest "Invalid phone number"
                         "Invalid phone number: missing")
          /\ (Wire.truthy (Wire.property r "phone") = true ->
              Wire.is_string (Wire.property r "phone") = false ->
              answer = NextError Wire.replace_not_a_function)
          /\ (forall s,
                Wire.property r "phone" = Some (Wire.JString s) ->
                Str.truthy s = true ->
                validatePhoneNumber s = false ->
                answer = BadRequest "Invalid phone number"
                           ("Invalid phone number: " ++ s))
          /\ (forall s,
                Wire.property r "phone" = Some (Wire.JString s) ->
                validatePhoneNumber s = true ->
                answer = BadRequest "Invalid recipient"
                           "Each recipient must have a message, or provide a template"))
  /\ (forall items,
        rq.(Wire.raw_recipients) = Some (Wire.JArray items) ->
        1 <= length items <= 1000 ->
        forallb (Wire.in_order template) items = true ->
        forall out, reply = Some out ->
        forall e m, fst out <> BadRequest e m)
  /\ (forall body,
        Wire.decode rq = Some body ->
        reply = Some (sendBulkSMS env auth gateway body)).
Proof.
  intros reply template. subst reply template.
  split; [|split; [|split; [|split]]].
  - unfold Wire.sendBulkSMS, Wire.validate. intros [Hno| ->]; [|reflexivity].
    destruct (Wire.raw_recipients rq) as [[| | | |items|]|]; try reflexivity.
    destruct (Hno items eq_refl).
  - unfold Wire.sendBulkSMS, Wire.validate. intros items -> Hlen.
    destruct items as [|x items]; [cbn in Hlen; lia|].
    apply Nat.ltb_lt in Hlen. rewrite Hlen. reflexivity.
  - unfold Wire.sendBulkSMS, Wire.validate. intros good r rest -> Hlen Hgood Hr.
    destruct (good ++ r :: rest) as [|x xs] eqn:E.
    { destruct good; discriminate. }
    apply Nat.leb_le in Hlen. rewrite Nat.ltb_antisym, Hlen.
    cbn [length Nat.eqb negb]. rewrite <- E.
    rewrite (check_recipients_first _ good (r :: rest) Hgood).
    cbn [Wire.check_recipients].
    destruct r as [| | | | |members].
    + eexists. split; [reflexivity|].
      repeat split; try reflexivity; try discriminate; congruence.
    + eexists. split; [reflexivity|].
      repeat split; try reflexivity; try discriminate; congruence.
    + eexists. split; [reflexivity|].
      repeat split; try reflexivity; try discriminate; congruence.
    + eexists. split; [reflexivity|].
      repeat split; try reflexivity; try discriminate; congruence.
    + eexists. split; [reflexivity|].
      repeat split; try reflexivity; try discriminate; congruence.
    + unfold Wire.in_order in Hr. unfold Wire.check_recipient.
      destruct (Wire.property (Wire.JObject members) "phone")
        as [[|b|nz|s|arr|obj]|] eqn:Hp; cbn [Wire.truthy Wire.is_string negb].
      * eexists. split; [reflexivity|].
        repeat split; try reflexivity; try discriminate; congruence.
      * destruct b; (eexists; split; [reflexivity|]);
          repeat split; try reflexivity; try discriminate; congruence.
      * destruct nz; (eexists; split; [reflexivity|]);
          repeat split; try reflexivity; try discriminate; congruence.
      * destruct (Str.truthy s) eqn:Hs; cbn [negb].
        -- destruct (validatePhoneNumber s) eqn:Hv; cbn [negb andb] in *.
           ++ apply orb_false_iff in Hr as [Hm Ht]. rewrite Hm, Ht.
              eexists. split; [reflexivity|].
              repeat split; try reflexivity; try discriminate; try congruence.
           ++ eexists. split; [reflexivity|].
              repeat split; try reflexivity; try discriminate; try congruence.
        -- eexists. split; [reflexivity|].
           repeat split; try reflexivity; try discriminate; try congruence.
           intros s' [= <-] Hv. apply valid_phone_truthy in Hv. congruence.
      * eexists. split; [reflexivity|].
        repeat split; try reflexivity; try discriminate; congruence.
      * eexists. split; [reflexivity|].
        repeat split; try reflexivity; try discriminate; congruence.
      * eexists. split; [reflexivity|].
        repeat split; try reflexivity; try discriminate; congruence.
  - intros items Hrs [Hmin Hmax] Hall out Hout e m.
    assert (Hpass : Wire.validate rq = Wire.Pass).
    { unfold Wire.validate. rewrite Hrs.
      destruct items as [|x xs] eqn:E; [cbn in Hmin; lia|].
      apply Nat.leb_le in Hmax. rewrite Nat.ltb_antisym, Hmax.
      cbn [length Nat.eqb negb]. rewrite <- E in *.
      rewrite <- (app_nil_r items), (check_recipients_first _ items [] Hall).
      reflexivity. }
    unfold Wire.sendBulkSMS in Hout. rewrite Hpass in Hout.
    destruct (negb _ || negb _ || negb _); [injection Hout as <-; discriminate|].
    destruct (Wire.decode rq) as [body|] eqn:Hdec; [|discriminate].
    injection Hout as <-.
    pose proof (decoded_request env auth gateway rq body Hdec) as Hsame.
    unfold Wire.sendBulkSMS in Hsame. rewrite Hpass in Hsame.
    destruct (typed_request_checks env auth gateway body) as (Hbad & Hgood & _).
    destruct (malformed body) eqn:Hmal; [|exact (Hgood eq_refl e m)].
    destruct (Hbad eq_refl) as (e' & m' & Heq). rewrite Heq in Hsame.
    destruct (negb _ || negb _ || negb _); [discriminate|].
    rewrite Hdec in Hsame. injection Hsame as Hsame.
    unfold Wire.decode in Hdec.
    destruct (Wire.text (Wire.raw_template rq)) as [t|] eqn:Ht; [|discriminate].
    destruct (Wire.text (Wire.raw_templateid rq)) as [id|]; [|discriminate].
    rewrite Hrs in Hdec.
    destruct (Wire.recipients_of items) as [rs|] eqn:Hitems; [|discriminate].
    injection Hdec as <-.
    destruct (check_recipients_decoded _ t items rs Ht Hitems) as [Hlen Hcheck].
    unfold Wire.validate in Hpass. rewrite Hrs in Hpass.
    destruct (length items =? 0)%nat; [discriminate|].
    destruct (1000 <? length items)%nat eqn:Hbig; [discriminate|].
    rewrite Hpass in Hcheck.
    unfold sendBulkSMS in Heq. cbn [recipients template] in Heq.
    destruct rs as [|r rs]; [cbn in Hlen; lia|].
    rewrite Hlen, Hbig, Hcheck in Heq.
    destruct (negb _ || negb _ || negb _); [discriminate|].
    destruct auth as [token|m'']; [|discriminate].
    destruct (make_batches t (r :: rs)); [|discriminate].
    destruct (send_batches _ _ _ _ _ _). discriminate.
  - intros body Hdec. exact (decoded_request env auth gateway rq body Hdec).
Qed.

Lemma malformed_request_is_rejected_witness :
  exists answer,
    Wire.sendBulkSMS Sample.env (Return "tok") Sample.accepting Wire.numeric_phone
    = Some (answer, [])
    /\ answer = NextError Wire.replace_not_a_function.
Proof.
  destruct (proj1 (proj2 (proj2
              (malformed_request_is_rejected Sample.env (Return "tok")
                 Sample.accepting Wire.numeric_phone)))
              [ Wire.JObject [ ("phone", Wire.JString "9876543210");
                               ("message", Wire.JString "hello") ] ]
              (Wire.JObject [ ("phone", Wire.JNumber true);
                              ("message", Wire.JString "hello") ])
              [] eq_refl)
    as (answer & Hreply & _ & _ & Hthrow & _).
  - vm_compute. lia.
  - reflexivity.
  - reflexivity.
  - exists answer. split; [exact Hreply|]. apply Hthrow; reflexivity.
Defined.

(** ** The token and the send calls *)

Lemma send_batches_only_sends env templateid token gateway start batches :
  Forall (fun e => e = Delay 500
                   \/ exists k b, e = Send k (send_request env templateid token b))
         (snd (send_batches env templateid token gateway start batches)).
Proof.
  revert start. induction batches as [|b rest IH]; intros start; [constructor|].
  cbn [send_batches]. specialize (IH (S start)).
  destruct (send_batches env templateid token gateway (S start) rest).
  cbn [snd] in *. constructor; [right; eauto|]. constructor; [left; reflexivity|].
  exact IH.
Qed.

(** X4.  A request asks for the token at most once, and before anything
    is sent.  Every send call carries the token that [getAuthToken]
    returned for this request, and is made only by a request that ends
    with the summary reply.  When [getAuthToken] throws, nothing is sent
    and the error is passed to [next]. *)
Theorem token_before_any_send (env : Env) (auth : result string)
    (gateway : Gateway) (body : BulkBody) :
  let reply := fst (sendBulkSMS env auth gateway body) in
  let effects := snd (sendBulkSMS env auth gateway body) in
  (effects = []
   \/ exists rest, effects = GetAuthToken :: rest
                   /\ Forall (fun e => e <> GetAuthToken) rest)
  /\ (forall k request,
         In (Send k request) effects ->
         auth = Return request.(bearer)
         /\ exists message summary results, reply = Json message summary results)
  /\ (forall m, auth = Throw m ->
         Forall (fun e => is_send e = false) effects
         /\ (effects <> [] -> reply = NextError m)).
Proof.
  cbn zeta. unfold sendBulkSMS.
  destruct (recipients body) as [[|r rs]|];
    try (cbn; repeat split; auto; intros; contradiction).
  destruct (1000 <? length (r :: rs))%nat;
    [cbn; repeat split; auto; intros; contradiction|].
  destruct (validate_recipients (template body) (r :: rs));
    [cbn; repeat split; auto; intros; contradiction|].
  destruct (negb _ || negb _ || negb _);
    [cbn; repeat split; auto; intros; contradiction|].
  destruct auth as [token|m'].
  2:{ cbn. split; [right; eexists; split; [reflexivity | constructor]|].
      split; [intros k request [H|[]]; discriminate H|].
      intros m [= ->]. split; [repeat constructor | reflexivity]. }
  destruct (make_batches (template body) (r :: rs)) as [batches|m'].
  2:{ cbn. split; [right; eexists; split; [reflexivity | constructor]|].
      split; [intros k request [H|[]]; discriminate H | discriminate]. }
  pose proof (send_batches_only_sends env (templateid body) token gateway 0 batches)
    as Hall.
  destruct (send_batches env (templateid body) token gateway 0 batches)
    as [results effects].
  cbn [fst snd] in *. split; [|split].
  - right. eexists. split; [reflexivity|].
    eapply Forall_impl; [exact Hall|]. cbn.
    intros e [->|(k & b & ->)]; discriminate.
  - intros k request [H|H]; [discriminate H|].
    rewrite Forall_forall in Hall. apply list_elem_of_In, Hall in H.
    destruct H as [H|(k' & b & [= _ ->])]; [discriminate H|].
    split; [reflexivity|]. unfold summary_reply. eauto.
  - discriminate.
Qed.

Lemma token_before_any_send_witness :
  Forall (fun e => is_send e = false)
         (snd (sendBulkSMS Sample.env (Throw "gateway down") Sample.accepting
                 (Sample.body Sample.three)))
  /\ (snd (sendBulkSMS Sample.env (Throw "gateway down") Sample.accepting
             (Sample.body Sample.three)) <> [] ->
      fst (sendBulkSMS Sample.env (Throw "gateway down") Sample.accepting
             (Sample.body Sample.three))
      = NextError "gateway down").
Proof.
  refine (proj2 (proj2 (token_before_any_send Sample.env (Throw "gateway down")
                          Sample.accepting (Sample.body Sample.three)))
            "gateway down" _).
  reflexivity.
Defined.

(** ** One result per recipient *)














(** ** Reading the gateway's response *)

Lemma all_chars_impl (p q : ascii -> bool) (s : string) :
  (forall c, p c = true -> q c = true) ->
  Str.all_chars p s = true -> Str.all_chars q s = true.
Proof.
  intros Hpq. induction s as [|c s IH]; cbn [Str.all_chars]; [reflexivity|].
  intros H. apply andb_true_iff in H as [Hc Hs].
  rewrite (Hpq c Hc), (IH Hs). reflexivity.
Qed.

Lemma all_chars_app (p : ascii -> bool) (a b : string) :
  Str.all_chars p (a ++ b) = Str.all_chars p a && Str.all_chars p b.
Proof.
  induction a as [|c a IH]; cbn [String.append Str.all_chars]; [reflexivity|].
  rewrite IH, andb_assoc. reflexivity.
Qed.

Lemma split_comma_chars (p : ascii -> bool) (s : string) :
  Str.all_chars p s = true ->
  Forall (fun x => Str.all_chars p x = true
                   /\ Str.all_chars (fun c => negb (Ascii.eqb c ",")) x = true)
         (split_comma s).
Proof.
  induction s as [|c s IH]; cbn [split_comma Str.all_chars].
  - repeat constructor.
  - intros H. apply andb_true_iff in H as [Hc Hs]. specialize (IH Hs).
    destruct (Ascii.eqb c ",") eqn:E.
    + constructor; [split; reflexivity | exact IH].
    + destruct (split_comma s) as [|h t]; [repeat constructor; cbn; rewrite ?Hc, ?E; reflexivity|].
      apply Forall_cons in IH as [[H1 H2] IH]. constructor; [|exact IH].
      cbn [Str.all_chars]. rewrite Hc, H1, E, H2. split; reflexivity.
Qed.

(** X7.  Whatever the text of the response, the parser returns at least
    one result, and every result is consistent: it is a success exactly
    when its code is ["0"]; a success carries no error message; a failure
    carries an error message and no guid; a guid or a sequence number, when
    present, is not empty; and no code contains a comma or an ampersand. *)
Theorem parsed_results_are_consistent (responseText : string) (n : nat) :
  parsePragatiResponse responseText n <> []
  /\ Forall (fun r =>
               (r.(success) = true <-> r.(errorCode) = "0")
               /\ (r.(success) = true -> r.(errorMessage) = None)
               /\ (r.(success) = false ->
                   r.(guid) = None /\ r.(errorMessage) <> None)
               /\ r.(guid) <> Some ""
               /\ r.(seqno) <> Some ""
               /\ Str.all_chars (fun c => negb (Ascii.eqb c ",")
                                          && negb (Ascii.eqb c "&"))
                                r.(errorCode) = true)
            (parsePragatiResponse responseText n).
Proof.
  split.
  { destruct (parsePragatiResponse_nonempty responseText n) as (f & r & ->).
    discriminate. }
  rewrite parsePragatiResponse_unfold.
  assert (Hg : match_field "guid=" responseText <> Some "").
  { intros H. apply match_field_Some in H as [H _]. congruence. }
  assert (Hcodes : Forall (fun c => Str.all_chars
                                      (fun c => negb (Ascii.eqb c ",")
                                                && negb (Ascii.eqb c "&")) c = true)
                          (error_codes_of responseText)).
  { unfold error_codes_of.
    destruct (match_field "errorcode=" responseText) as [m|] eqn:E;
      [|repeat constructor].
    apply match_field_Some in E as (_ & Hamp & _).
    eapply Forall_impl; [apply (split_comma_chars _ m Hamp)|].
    cbn. intros x [H1 H2]. clear - H1 H2.
    induction x as [|c x IH]; [reflexivity|].
    cbn [Str.all_chars] in *.
    apply andb_true_iff in H1 as [-> H1]. apply andb_true_iff in H2 as [-> H2].
    rewrite (IH H1 H2). reflexivity. }
  apply Forall_forall. intros r Hr.
  apply elem_of_lookup_imap in Hr as (i & code & -> & Hi).
  rewrite Forall_forall in Hcodes.
  specialize (Hcodes code (list_elem_of_lookup_2 _ _ _ Hi)).
  unfold parsed_result. cbn [success guid errorCode errorMessage seqno].
  split; [apply String.eqb_eq|].
  split; [intros ->; reflexivity|].
  split; [intros ->; split; [reflexivity | discriminate]|].
  split; [destruct (String.eqb code "0"); [exact Hg | discriminate]|].
  split; [|exact Hcodes].
  unfold seqno_at. destruct (seqnos_of responseText !! i) as [[|c s]|];
    discriminate.
Qed.

Lemma split_comma_plain (a : string) :
  Str.all_chars (fun c => negb (Ascii.eqb c ",")) a = true ->
  split_comma a = [a]
  /\ forall rest, split_comma (a ++ String "," rest) = a :: split_comma rest.
Proof.
  induction a as [|c a IH]; cbn [Str.all_chars String.append split_comma].
  - intros _. split; reflexivity.
  - intros H. apply andb_true_iff in H as [Hc Ha]. apply negb_true_iff in Hc.
    destruct (IH Ha) as [IH1 IH2]. rewrite Hc, IH1. split; [reflexivity|].
    intros rest. rewrite IH2. reflexivity.
Qed.

(** Splitting undoes joining, for values without comma. *)
Lemma split_join_comma (l : list string) :
  l <> [] ->
  Forall (fun x => Str.all_chars (fun c => negb (Ascii.eqb c ",")) x = true) l ->
  split_comma (Str.join_comma l) = l.
Proof.
  intros Hne Hall. induction Hall as [|x l Hx Hall IH]; [congruence|].
  destruct l as [|y l].
  - cbn [Str.join_comma]. apply (split_comma_plain x Hx).
  - change (Str.join_comma (x :: y :: l))
      with (x ++ String "," (Str.join_comma (y :: l)))%string.
    rewrite (proj2 (split_comma_plain x Hx)), IH by discriminate. reflexivity.
Qed.

Lemma join_comma_chars (p : ascii -> bool) (l : list string) :
  p ","%char = true ->
  Forall (fun x => Str.all_chars p x = true) l ->
  Str.all_chars p (Str.join_comma l) = true.
Proof.
  intros Hp. induction 1 as [|x l Hx Hall IH]; [reflexivity|].
  destruct l as [|y l]; [exact Hx|].
  change (Str.join_comma (x :: y :: l))
    with (x ++ String "," (Str.join_comma (y :: l)))%string.
  rewrite all_chars_app. cbn [Str.all_chars]. rewrite Hx, Hp, IH. reflexivity.
Qed.

Lemma join_comma_truthy (l : list string) :
  l <> [] -> Forall (fun x => Str.truthy x = true) l ->
  Str.truthy (Str.join_comma l) = true.
Proof.
  intros Hne Hall. destruct Hall as [|x l Hx _]; [congruence|].
  destruct x as [|c x]; [discriminate|]. destruct l; reflexivity.
Qed.

(** A key that ends in [=] does not match inside a value without [=] that
    is followed by [&]. *)
Lemma strip_prefix_blocked (k g t : string) :
  Str.all_chars (fun c => negb (Ascii.eqb c "&")) k = true ->
  Str.all_chars (fun c => negb (Ascii.eqb c "=")) g = true ->
  Str.strip_prefix (k ++ "=") (g ++ String "&" t) = None.
Proof.
  revert g. induction k as [|a k IH]; intros g Hk Hg;
    cbn [String.append Str.strip_prefix].
  - destruct g as [|c g]; cbn [String.append]; [reflexivity|].
    cbn [Str.all_chars] in Hg. apply andb_true_iff in Hg as [Hc _].
    apply negb_true_iff in Hc. rewrite Ascii.eqb_sym, Hc. reflexivity.
  - cbn [Str.all_chars] in Hk. apply andb_true_iff in Hk as [Ha Hk].
    apply negb_true_iff in Ha.
    destruct g as [|c g]; cbn [String.append].
    + rewrite Ha. reflexivity.
    + cbn [Str.all_chars] in Hg. apply andb_true_iff in Hg as [_ Hg].
      destruct (Ascii.eqb a c); [apply IH; assumption | reflexivity].
Qed.

Lemma match_field_over_value (k g t : string) :
  Str.all_chars (fun c => negb (Ascii.eqb c "&")) k = true ->
  Str.all_chars (fun c => negb (Ascii.eqb c "=")) g = true ->
  match_field (k ++ "=") (g ++ String "&" t) = match_field (k ++ "=") t.
Proof.
  intros Hk. induction g as [|c g IH]; intros Hg.
  - pose proof (strip_prefix_blocked k "" t Hk eq_refl) as Hb.
    cbn [String.append match_field] in *. rewrite Hb. reflexivity.
  - pose proof (strip_prefix_blocked k (String c g) t Hk Hg) as Hb.
    cbn [String.append match_field] in *. rewrite Hb.
    cbn [Str.all_chars] in Hg. apply andb_true_iff in Hg as [_ Hg]. exact (IH Hg).
Qed.

Lemma until_amp_value (v rest : string) :
  Str.all_chars (fun c => negb (Ascii.eqb c "&")) v = true ->
  rest = "" \/ (exists rest', rest = String "&" rest') ->
  until_amp (v ++ rest) = v.
Proof.
  intros Hv Hrest. induction v as [|c v IH]; cbn [String.append until_amp].
  - destruct Hrest as [->|[rest' ->]]; reflexivity.
  - cbn [Str.all_chars] in Hv. apply andb_true_iff in Hv as [Hc Hv].
    apply negb_true_iff in Hc. rewrite Hc, (IH Hv). reflexivity.
Qed.

Lemma match_field_here (key v rest : string) :
  Str.truthy key = true -> Str.truthy v = true ->
  Str.all_chars (fun c => negb (Ascii.eqb c "&")) v = true ->
  rest = "" \/ (exists rest', rest = String "&" rest') ->
  match_field key (key ++ v ++ rest) = Some v.
Proof.
  intros Hkey Hv Hamp Hrest.
  assert (Hs : Str.strip_prefix key (key ++ v ++ rest) = Some (v ++ rest)%string).
  { apply strip_prefix_spec. reflexivity. }
  destruct key as [|a key]; [discriminate|].
  cbn [String.append match_field] in *. rewrite Hs.
  rewrite (until_amp_value v rest Hamp Hrest).
  destruct v; [discriminate | reflexivity].
Qed.

Lemma plain_value_parts (s : string) :
  plain_value s = true ->
  Str.truthy s = true
  /\ Str.all_chars (fun c => negb (Ascii.eqb c "&")) s = true
  /\ Str.all_chars (fun c => negb (Ascii.eqb c ",")) s = true
  /\ Str.all_chars (fun c => negb (Ascii.eqb c "=")) s = true.
Proof.
  unfold plain_value. intros H. apply andb_true_iff in H as [Ht Ha].
  split; [exact Ht|].
  repeat split; (eapply all_chars_impl; [|exact Ha]); cbn; intros c Hc;
    apply andb_true_iff in Hc as [Hc H3]; apply andb_true_iff in Hc as [H1 H2];
    assumption.
Qed.

Lemma plain_values_joined (l : list string) :
  forallb plain_value l = true ->
  Forall (fun x => Str.all_chars (fun c => negb (Ascii.eqb c ",")) x = true) l
  /\ Forall (fun x => Str.truthy x = true) l
  /\ Str.all_chars (fun c => negb (Ascii.eqb c "&")) (Str.join_comma l) = true
  /\ Str.all_chars (fun c => negb (Ascii.eqb c "=")) (Str.join_comma l) = true.
Proof.
  intros H. rewrite forallb_forall in H.
  assert (Hall : Forall (fun x => plain_value x = true) l).
  { apply Forall_forall. intros x Hx. apply H, list_elem_of_In, Hx. }
  split; [eapply Forall_impl; [exact Hall|]; intros x Hx; apply plain_value_parts, Hx|].
  split; [eapply Forall_impl; [exact Hall|]; intros x Hx; apply plain_value_parts, Hx|].
  split; apply join_comma_chars; try reflexivity;
    (eapply Forall_impl; [exact Hall|]; intros x Hx; apply plain_value_parts, Hx).
Qed.

(** The three fields of a rendered response are found again. *)
Lemma fields_of_rendered (guid : string) (codes seqnos : list string) :
  plain_value guid = true ->
  forallb plain_value codes = true ->
  forallb plain_value seqnos = true ->
  codes <> [] ->
  let responseText := render_response guid codes seqnos in
  match_field "guid=" responseText = Some guid
  /\ error_codes_of responseText = codes
  /\ seqnos_of responseText = seqnos.
Proof.
  intros Hguid Hcodes Hseq Hne responseText.
  destruct (plain_value_parts _ Hguid) as (Gt & Gamp & _ & Geq).
  destruct (plain_values_joined _ Hcodes) as (Ccomma & Ctruthy & Camp & Ceq).
  destruct (plain_values_joined _ Hseq) as (Scomma & Struthy & Samp & Seq).
  pose proof (join_comma_truthy codes Hne Ctruthy) as Cne.
  set (S := Str.join_comma seqnos) in *.
  set (C := Str.join_comma codes) in *.
  assert (Hc : match_field "errorcode=" responseText = Some C).
  { unfold responseText, render_response. fold C S.
    set (T := ("errorcode=" ++ C ++ "&seqno=" ++ S)%string).
    change (match_field "errorcode=" ("guid=" ++ (guid ++ String "&" T)) = Some C).
    cbn [String.append match_field Str.strip_prefix Ascii.eqb Bool.eqb].
    pose proof (match_field_over_value "errorcode" guid T eq_refl Geq) as H.
    change ("errorcode" ++ "=")%string with "errorcode=" in H. rewrite H.
    apply (match_field_here "errorcode=" C ("&seqno=" ++ S)); auto.
    right. eauto. }
  assert (Hs : match_field "seqno=" responseText
               = match seqnos with [] => None | _ => Some S end).
  { unfold responseText, render_response. fold C S.
    set (T := ("seqno=" ++ S)%string).
    change (match_field "seqno="
              ("guid=" ++ (guid ++ String "&"
                 ("errorcode=" ++ (C ++ String "&" T))))
            = match seqnos with [] => None | _ => Some S end).
    cbn [String.append match_field Str.strip_prefix Ascii.eqb Bool.eqb].
    match goal with
    | |- match_field _ (guid ++ String "&" ?X) = _ =>
        pose proof (match_field_over_value "seqno" guid X eq_refl Geq) as H
    end.
    change ("seqno" ++ "=")%string with "seqno=" in H. rewrite H. clear H.
    cbn [String.append match_field Str.strip_prefix Ascii.eqb Bool.eqb].
    pose proof (match_field_over_value "seqno" C T eq_refl Ceq) as H.
    change ("seqno" ++ "=")%string with "seqno=" in H. rewrite H. clear H.
    subst T. destruct seqnos as [|s seqnos]; [reflexivity|].
    rewrite <- (string_app_nil_r S) at 1.
    apply (match_field_here "seqno=" S ""); auto.
    apply join_comma_truthy; [discriminate | assumption]. }
  split; [|split].
  - unfold responseText, render_response. apply match_field_here; auto.
    right. eauto.
  - unfold error_codes_of. rewrite Hc. apply split_join_comma; assumption.
  - unfold seqnos_of. rewrite Hs. destruct seqnos as [|s seqnos]; [reflexivity|].
    apply split_join_comma; [discriminate | assumption].
Qed.

(** X8.  A response in the gateway's documented format, with a guid, at
    least one code and any number of sequence numbers, all of them
    non-empty and free of [&], [,] and [=], is read back exactly: the
    parser returns one result per code, in order, each with the sequence
    number at its position.  When such a response comes with a success
    status, the member at position [i] of the batch is reported as
    delivered, with the guid and the sequence number at position [i], when
    the code at position [i] is ["0"], and as refused with that code and
    its message otherwise. *)
Theorem rendered_response_is_read_back (id : string) (codes seqnos : list string)
    (group : list Recipient) (status : N) :
  plain_value id = true ->
  forallb plain_value codes = true ->
  forallb plain_value seqnos = true ->
  codes <> [] ->
  http_ok status = true ->
  let responseText := render_response id codes seqnos in
  parsePragatiResponse responseText (length group)
  = imap (fun i code =>
            {| success := String.eqb code "0";
               guid := if String.eqb code "0" then Some id else None;
               errorCode := code;
               errorMessage := if String.eqb code "0" then None
                               else Some (error_message_of code);
               seqno := seqnos !! i |}) codes
  /\ forall i r code,
       group !! i = Some r -> codes !! i = Some code ->
       batch_results group (Responded status responseText) !! i
       = Some (if String.eqb code "0"
               then Delivered r.(phone) (Some id) (seqnos !! i)
               else Refused r.(phone) (Some (error_message_of code)) code).
Proof.
  intros Hguid Hcodes Hseq Hne Hok responseText.
  destruct (fields_of_rendered id codes seqnos Hguid Hcodes Hseq Hne)
    as (Fg & Fc & Fs). fold responseText in Fg, Fc, Fs.
  assert (Hat : forall i, seqno_at seqnos i = seqnos !! i).
  { intros i. unfold seqno_at. destruct (seqnos !! i) as [s|] eqn:E; [|reflexivity].
    destruct (plain_values_joined _ Hseq) as (_ & Ht & _).
    rewrite Forall_forall in Ht.
    rewrite (Ht s (list_elem_of_lookup_2 _ _ _ E)). reflexivity. }
  assert (Hparse : parsePragatiResponse responseText (length group)
                   = imap (fun i code =>
                             {| success := String.eqb code "0";
                                guid := if String.eqb code "0" then Some id
                                        else None;
                                errorCode := code;
                                errorMessage := if String.eqb code "0" then None
                                                else Some (error_message_of code);
                                seqno := seqnos !! i |}) codes).
  { rewrite parsePragatiResponse_unfold, Fg, Fc, Fs.
    apply imap_ext. intros i code _. unfold parsed_result.
    rewrite Hat. destruct (String.eqb code "0"); reflexivity. }
  split; [exact Hparse|].
  intros i r code Hi Hc. cbn [batch_results]. rewrite Hok. cbn [negb].
  destruct (parsePragatiResponse_nonempty responseText (length group))
    as (first & rest & Hp).
  rewrite Hp, list_lookup_imap, Hi. cbn [fmap option_fmap option_map].
  rewrite <- Hp, Hparse, list_lookup_imap, Hc.
  cbn [fmap option_fmap option_map default].
  unfold reconcile. cbn [success guid errorCode errorMessage seqno].
  destruct (String.eqb code "0"); reflexivity.
Qed.

Lemma rendered_response_is_read_back_witness :
  batch_results [ Sample.recipient "9876543210" "x";
                  Sample.recipient "9876543211" "x" ]
    (Responded 200 (render_response "G1" [ "0"; "7" ] [ "911"; "912" ]))
  !! 1%nat
  = Some (if String.eqb "7" "0"
          then Delivered "9876543211" (Some "G1") ([ "911"; "912" ] !! 1%nat)
          else Refused "9876543211" (Some (error_message_of "7")) "7").
Proof.
  refine (proj2 (rendered_response_is_read_back "G1" [ "0"; "7" ] [ "911"; "912" ]
                   [ Sample.recipient "9876543210" "x";
                     Sample.recipient "9876543211" "x" ] 200 _ _ _ _ _)
            1%nat (Sample.recipient "9876543211" "x") "7" _ _);
    try reflexivity.
  discriminate.
Defined.

(** ** Token status *)

Lemma of_N_starts_with_digit (n : N) :
  exists c r, Str.of_N n = String c r /\ Str.is_digit c = true.
Proof.
  unfold Str.of_N. destruct (N.to_uint n); cbn; eauto.
Qed.

Lemma hours_minutes_not_expired (x : Z) : Status.hours_minutes x <> "expired".
Proof.
  unfold Status.hours_minutes.
  destruct (of_N_starts_with_digit (Z.to_N (x / 3600))) as (c & r & -> & Hc).
  cbn [String.append]. intros [= -> _]. discriminate Hc.
Qed.

Lemma to_double_exact (z : Z) :
  (Z.abs z <= 2 ^ 53)%Z -> Status.to_double z = z.
Proof.
  intros Hz. unfold Status.to_double.
  destruct (Z.leb_spec (Z.log2 (Z.abs z) - 52) 0) as [_|He]; [reflexivity|].
  assert (Hpos : (0 < Z.abs z)%Z).
  { destruct (Z.eq_dec (Z.abs z) 0%Z) as [E|]; [|lia].
    rewrite E in He. cbn in He. lia. }
  assert (Habs : (Z.abs z = 2 ^ 53)%Z).
  { destruct (Z.eq_dec (Z.abs z) (2 ^ 53)%Z) as [|Hne]; [assumption|].
    assert (Hlt : (Z.abs z < 2 ^ 53)%Z) by lia.
    apply Z.log2_lt_pow2 in Hlt; lia. }
  assert (Hlog : Z.log2 (Z.abs z) = 53%Z).
  { rewrite Habs. apply Z.log2_pow2. lia. }
  rewrite Hlog. change (2 ^ (53 - 52))%Z with 2%Z.
  assert (Hr : (z mod 2 = 0)%Z).
  { destruct (Z.abs_eq_or_opp z) as [E|E]; rewrite E in Habs.
    - rewrite Habs. reflexivity.
    - replace z with (- 2 ^ 53)%Z by lia. reflexivity. }
  pose proof (Z.div_mod z 2 ltac:(lia)) as Hdiv. rewrite Hr in *.
  change (2 * 0 <? 2)%Z with true. cbv iota. lia.
Qed.

Lemma to_double_near (z : Z) :
  (Z.abs z < 2 ^ 54)%Z -> (Z.abs (Status.to_double z - z) <= 1)%Z.
Proof.
  intros Hz. unfold Status.to_double.
  destruct (Z.leb_spec (Z.log2 (Z.abs z) - 52) 0) as [_|He]; [lia|].
  assert (Hpos : (0 < Z.abs z)%Z).
  { destruct (Z.eq_dec (Z.abs z) 0%Z) as [E|]; [|lia].
    rewrite E in He. cbn in He. lia. }
  apply Z.log2_lt_pow2 in Hz; [|exact Hpos].
  assert (Hlog : Z.log2 (Z.abs z) = 53%Z) by lia.
  rewrite Hlog. change (2 ^ (53 - 52))%Z with 2%Z.
  pose proof (Z.div_mod z 2 ltac:(lia)).
  pose proof (Z.mod_pos_bound z 2 ltac:(lia)).
  destruct (2 * (z mod 2) <? 2)%Z eqn:E1; [apply Z.ltb_lt in E1; lia|].
  destruct (2 <? 2 * (z mod 2))%Z eqn:E2; [apply Z.ltb_lt in E2; lia|].
  destruct (Z.even (z / 2)); lia.
Qed.

(** Rounding does not carry a difference of time values across one
    second. *)
Lemma to_double_second (z : Z) :
  (Z.abs z < 2 ^ 54)%Z ->
  ((1000 <= z)%Z -> (1000 <= Status.to_double z)%Z)
  /\ ((z < 1000)%Z -> (Status.to_double z < 1000)%Z).
Proof.
  intros Hz.
  destruct (Z_le_gt_dec (Z.abs z) (2 ^ 53)) as [Hs|Hl].
  - rewrite (to_double_exact z Hs). auto.
  - pose proof (to_double_near z Hz). change (2 ^ 53)%Z with 9007199254740992%Z in Hl.
    split; lia.
Qed.

(** X9.  The readings of the clock and the expiry of the cached credential
    being time values (integers of magnitude at most 8.64e15),
    [getTokenStatus] always replies.  It reports the token as valid exactly
    when [getAuthToken] would return it from the cache; the expiry instant
    is given exactly then.  The remaining time is shown in whole hours and
    minutes, rounded down, and as "expired" when the token is not valid,
    and also when it is valid with less than one second left.  The
    remaining time shown is that of the difference as a double: the exact
    difference when its magnitude is at most [2 ^ 53], and within one
    millisecond of it otherwise. *)
Theorem token_status_report (c : Session.Credential) (now1 now2 : Z) :
  (Z.abs c.(Session.expiry) <= Status.MAX_TIME)%Z ->
  (Z.abs now1 <= Status.MAX_TIME)%Z ->
  (Z.abs now2 <= Status.MAX_TIME)%Z ->
  let left := Status.to_double (c.(Session.expiry) - now2) in
  exists st,
    Status.getTokenStatus c now1 now2 = Return st
    /\ (st.(Status.valid) = Some true <-> Session.valid c now1 = true)
    /\ (st.(Status.valid) = None <-> c.(Session.token) = "")
    /\ (st.(Status.expiresAt)
        = if Session.valid c now1 then Some c.(Session.expiry) else None)
    /\ (st.(Status.expiresIn) = "expired"
        <-> Session.valid c now1 = false
            \/ (c.(Session.expiry) - now2 < 1000)%Z)
    /\ (Session.valid c now1 = true ->
        (1000 <= c.(Session.expiry) - now2)%Z ->
        exists h m : Z,
          st.(Status.expiresIn)
          = (Str.of_N (Z.to_N h) ++ "h " ++ Str.of_N (Z.to_N m) ++ "m")%string
          /\ (0 <= h)%Z /\ (0 <= m < 60)%Z
          /\ (3600 * h + 60 * m <= left / 1000 < 3600 * h + 60 * m + 60)%Z)
    /\ (Z.abs (left - (c.(Session.expiry) - now2)) <= 1)%Z
    /\ ((Z.abs (c.(Session.expiry) - now2) <= 2 ^ 53)%Z ->
        left = (c.(Session.expiry) - now2)%Z).
Proof.
  intros Hmax _ Hnow2 left.
  assert (Hd : (Z.abs (Session.expiry c - now2) < 2 ^ 54)%Z).
  { unfold Status.MAX_TIME in *. change (2 ^ 54)%Z with 18014398509481984%Z. lia. }
  destruct (to_double_second _ Hd) as [Hge Hlt]. fold left in Hge, Hlt.
  pose proof (to_double_near _ Hd) as Hnear. fold left in Hnear.
  apply Z.leb_le in Hmax.
  unfold Status.getTokenStatus, Session.valid. rewrite Hmax. fold left.
  set (secs := (left / 1000)%Z).
  assert (Hpos : (1000 <= Session.expiry c - now2)%Z -> (0 <? secs)%Z = true).
  { intros H. apply Z.ltb_lt, Z.div_str_pos. specialize (Hge H). lia. }
  assert (Hneg : (Session.expiry c - now2 < 1000)%Z -> (0 <? secs)%Z = false).
  { intros H. specialize (Hlt H). apply Z.ltb_ge. unfold secs.
    destruct (Z_lt_le_dec left 0).
    - apply Z.lt_le_incl, Z.div_lt_upper_bound; lia.
    - rewrite Z.div_small; lia. }
  destruct (Str.truthy (Session.token c)) eqn:Ht;
    destruct (now1 <? Session.expiry c)%Z eqn:Hn; cbn [andb];
    (eexists; split; [reflexivity|]);
    cbn [Status.valid Status.expiresIn Status.expiresAt].
  - (* valid *)
    split; [tauto|].
    split; [split; [discriminate | intros H; rewrite H in Ht; discriminate]|].
    split; [reflexivity|]. split; [|split; [|split; [exact Hnear|]]].
    + destruct (Z_lt_le_dec (Session.expiry c - now2) 1000) as [Hl|Hg].
      * rewrite (Hneg Hl). split; auto.
      * rewrite (Hpos Hg).
        split; [intros H; destruct (hours_minutes_not_expired _ H)|].
        intros [H|H]; [discriminate | lia].
    + intros _ Hleft. rewrite (Hpos Hleft).
      exists (secs / 3600)%Z, ((secs mod 3600) / 60)%Z.
      split; [reflexivity|].
      assert (0 < secs)%Z by (apply Z.ltb_lt, Hpos, Hleft).
      pose proof (Z.mod_pos_bound secs 3600 ltac:(lia)).
      pose proof (Z.div_mod secs 3600 ltac:(lia)).
      pose proof (Z.div_mod (secs mod 3600) 60 ltac:(lia)).
      pose proof (Z.mod_pos_bound (secs mod 3600) 60 ltac:(lia)).
      split; [apply Z.div_pos; lia|].
      split; [split; [apply Z.div_pos; lia | apply Z.div_lt_upper_bound; lia]|].
      lia.
    + apply to_double_exact.
  - (* token present, expired *)
    split; [split; discriminate|].
    split; [split; [discriminate | intros H; rewrite H in Ht; discriminate]|].
    split; [reflexivity|]. split; [split; auto|].
    split; [discriminate|]. split; [exact Hnear | apply to_double_exact].
  - (* no token *)
    split; [split; discriminate|].
    split; [split; [intros _|reflexivity]; destruct (Session.token c); [reflexivity | discriminate]|].
    split; [reflexivity|]. split; [split; auto|].
    split; [discriminate|]. split; [exact Hnear | apply to_double_exact].
  - split; [split; discriminate|].
    split; [split; [intros _|reflexivity]; destruct (Session.token c); [reflexivity | discriminate]|].
    split; [reflexivity|]. split; [split; auto|].
    split; [discriminate|]. split; [exact Hnear | apply to_double_exact].
Qed.

Lemma token_status_report_witness :
  exists st,
    Status.getTokenStatus {| Session.token := "T1"; Session.expiry := 2000 |}
      1200 1200
    = Return st
    /\ st.(Status.valid) = Some true
    /\ st.(Status.expiresIn) = "expired".
Proof.
  destruct (token_status_report {| Session.token := "T1"; Session.expiry := 2000 |}
              1200 1200) as (st & Hst & Hv & _ & _ & He & _).
  - vm_compute. discriminate.
  - vm_compute. discriminate.
  - vm_compute. discriminate.
  - exists st. split; [exact Hst|]. split.
    + apply Hv. reflexivity.
    + apply He. right. reflexivity.
Defined.

(** The largest expiry and nearly the smallest clock reading: the
    difference, 17279999999999999 ms, is not a double and is rounded up by
    one millisecond, which completes the hour. *)
Example farthest_expiry_is_rounded :
  Status.getTokenStatus
    {| Session.token := "T1"; Session.expiry := 8640000000000000 |}
    (-8639999999999999) (-8639999999999999)
  = Return {| Status.valid := Some true;
              Status.expiresIn := "4800000000h 0m";
              Status.expiresAt := Some 8640000000000000%Z |}.
Proof. vm_compute. reflexivity. Qed.

(** ** Authentication and routing *)

Lemma remove_first_prefix (pat s : string) :
  Auth.remove_first pat (pat ++ s) = s.
Proof.
  assert (H : Str.strip_prefix pat (pat ++ s) = Some s)
    by (apply strip_prefix_spec; reflexivity).
  destruct (pat ++ s)%string; cbn [Auth.remove_first]; rewrite H; reflexivity.
Qed.

Lemma remove_first_absent (c : ascii) (pat s : string) :
  Str.all_chars (fun x => negb (Ascii.eqb x c)) s = true ->
  Auth.remove_first (String c pat) s = s.
Proof.
  induction s as [|x s IH]; [reflexivity|].
  cbn [Str.all_chars Auth.remove_first Str.strip_prefix]. intros H.
  apply andb_true_iff in H as [Hx Hs]. apply negb_true_iff in Hx.
  rewrite Ascii.eqb_sym, Hx, (IH Hs). reflexivity.
Qed.

(** X10.  [authenticate] lets a request through exactly when the server's
    secret is set and the key the request presents is that secret.  The
    key presented is the [x-api-key] header when it is not empty, whatever
    the [authorization] header says; otherwise it is the [authorization]
    header with its first "Bearer " removed, so that both "Bearer <key>"
    and a bare key without a capital B are accepted.  A request that is not
    let through is answered with 500 when the secret is not set, else with
    401 when it presents no key, else with 403. *)
Theorem authenticate_checks_the_key (validKey : string) (h : Auth.Headers) :
  (Auth.authenticate validKey h = Auth.Next
   <-> validKey <> "" /\ Auth.presented_key h = validKey)
  /\ (h.(Auth.x_api_key) <> "" -> Auth.presented_key h = h.(Auth.x_api_key))
  /\ (forall key, h.(Auth.x_api_key) = "" ->
        h.(Auth.authorization) = ("Bearer " ++ key)%string ->
        Auth.presented_key h = key)
  /\ (h.(Auth.x_api_key) = "" ->
      Str.all_chars (fun x => negb (Ascii.eqb x "B")) h.(Auth.authorization) = true ->
      Auth.presented_key h = h.(Auth.authorization))
  /\ (forall status error message,
        Auth.authenticate validKey h = Auth.Respond status error message ->
        (status = 500%N /\ validKey = "")
        \/ (status = 401%N /\ validKey <> "" /\ Auth.presented_key h = "")
        \/ (status = 403%N /\ validKey <> "" /\ Auth.presented_key h <> ""
            /\ Auth.presented_key h <> validKey)).
Proof.
  unfold Auth.authenticate. split; [|split; [|split; [|split]]].
  - destruct validKey as [|c k]; cbn [Str.truthy negb].
    { split; [discriminate | intros [H _]; congruence]. }
    destruct (Auth.presented_key h) as [|c' k'] eqn:E; cbn [Str.truthy negb].
    { split; [discriminate | intros [_ H]; discriminate]. }
    destruct (String.eqb_spec (String c' k') (String c k)) as [->|Hne]; cbn [negb].
    + split; [intros _; split; [discriminate | reflexivity] | reflexivity].
    + split; [discriminate | intros [_ H]; congruence].
  - unfold Auth.presented_key, Str.or_else.
    destruct (Auth.x_api_key h); [congruence | reflexivity].
  - intros key Hx Ha. unfold Auth.presented_key. rewrite Hx, Ha.
    cbn [Str.or_else Str.truthy]. apply remove_first_prefix.
  - intros Hx Ha. unfold Auth.presented_key. rewrite Hx.
    cbn [Str.or_else Str.truthy]. apply remove_first_absent, Ha.
  - intros status error message.
    destruct validKey as [|c k]; cbn [Str.truthy negb].
    { intros [= <- _ _]. left. split; reflexivity. }
    destruct (Auth.presented_key h) as [|c' k'] eqn:E; cbn [Str.truthy negb].
    { intros [= <- _ _]. right. left. repeat split. discriminate. }
    destruct (String.eqb_spec (String c' k') (String c k)) as [->|Hne]; cbn [negb].
    + discriminate.
    + intros [= <- _ _]. right. right. repeat split; try discriminate. exact Hne.
Qed.

Lemma authenticate_checks_the_key_witness :
  Auth.presented_key {| Auth.x_api_key := ""; Auth.authorization := "Bearer s3cret" |}
  = "s3cret".
Proof.
  refine (proj1 (proj2 (proj2 (authenticate_checks_the_key "s3cret"
            {| Auth.x_api_key := ""; Auth.authorization := "Bearer s3cret" |})))
            "s3cret" _ _); reflexivity.
Defined.

(** X11.  Every route sits behind [authenticate]: a request that does not
    present the server's secret is answered with 401, 403 or 500 and
    reaches no handler, so that it requests no token and sends nothing;
    a request that presents it gets the reply and the effects of the
    handler of its route. *)
Theorem routes_are_guarded (validKey : string) (env : Env) (auth : result string)
    (gateway : Gateway) (cachedToken : Session.Credential) (now1 now2 : Z)
    (h : Auth.Headers) (rq : Router.Request) :
  let out := Router.handle validKey env auth gateway cachedToken now1 now2 h rq in
  (validKey = "" \/ Auth.presented_key h <> validKey ->
   snd out = []
   /\ exists status error message,
        fst out = Router.Denied status error message
        /\ (status = 401 \/ status = 403 \/ status = 500)%N)
  /\ (validKey <> "" -> Auth.presented_key h = validKey ->
      out = match rq with
            | Router.PostSend body =>
                (Router.Sms (fst (sendBulkSMS env auth gateway body)),
                 snd (sendBulkSMS env auth gateway body))
            | Router.PostSendSingle body =>
                (Router.Sms (fst (sendSingleSMS env auth gateway body)),
                 snd (sendSingleSMS env auth gateway body))
            | Router.GetTokenStatus =>
                (Router.TokenStatus
                   (Status.getTokenStatus cachedToken now1 now2), [])
            end).
Proof.
  cbn zeta. unfold Router.handle, Auth.authenticate. split.
  - intros Hbad.
    destruct validKey as [|c k]; cbn [Str.truthy negb].
    { split; [reflexivity|]. do 3 eexists. split; [reflexivity | auto]. }
    destruct (Auth.presented_key h) as [|c' k'] eqn:E; cbn [Str.truthy negb].
    { split; [reflexivity|]. do 3 eexists. split; [reflexivity | auto]. }
    destruct (String.eqb_spec (String c' k') (String c k)) as [Heq|Hne]; cbn [negb].
    + exfalso. destruct Hbad as [H|H]; [discriminate H | exact (H Heq)].
    + split; [reflexivity|]. do 3 eexists. split; [reflexivity | auto].
  - intros Hset ->.
    destruct validKey as [|c k]; [congruence|].
    cbn [Str.truthy negb]. rewrite String.eqb_refl. cbn [negb].
    destruct rq as [body|body|]; [| |reflexivity].
    + destruct (sendBulkSMS env auth gateway body). reflexivity.
    + destruct (sendSingleSMS env auth gateway body). reflexivity.
Qed.

Lemma routes_are_guarded_witness :
  snd (Router.handle "s3cret" Sample.env (Return "tok") Sample.accepting
         Session.no_credential 0 0
         {| Auth.x_api_key := "guess"; Auth.authorization := "Bearer s3cret" |}
         (Router.PostSend (Sample.body Sample.three)))
  = [].
Proof.
  refine (proj1 (proj1 (routes_are_guarded "s3cret" Sample.env (Return "tok")
            Sample.accepting Session.no_credential 0 0
            {| Auth.x_api_key := "guess"; Auth.authorization := "Bearer s3cret" |}
            (Router.PostSend (Sample.body Sample.three))) _)).
  right. vm_compute. discriminate.
Defined.

(** ** The token cache over any schedule *)

Lemma step_now_any (env : Env) (e : Session.Event) (s s1 : Session.State) :
  Session.step env e s = Some s1 -> (s.(Session.now) <= s1.(Session.now))%Z.
Proof.
  intros H.
  unfold Session.step, Session.getAuthToken, Session.on_generate,
    Session.on_enable, Session.start_refresh in H.
  repeat case_match; simplify_eq; cbn; lia.
Qed.

Lemma run_now_any (env : Env) (es : list Session.Event) (s s' : Session.State) :
  Session.run env es s = Some s' -> (s.(Session.now) <= s'.(Session.now))%Z.
Proof.
  revert s. induction es as [|e es IH]; intros s; cbn [Session.run].
  - intros [= <-]. reflexivity.
  - destruct (Session.step env e s) as [s1|] eqn:E; [|discriminate].
    intros H. apply step_now_any in E. apply IH in H. lia.
Qed.

Lemma run_invariant (env : Env) (P : Session.State -> Prop) :
  (forall e s s1, P s -> Session.step env e s = Some s1 -> P s1) ->
  forall es s s', P s -> Session.run env es s = Some s' -> P s'.
Proof.
  intros Hstep. induction es as [|e es IH]; intros s s' Hs; cbn [Session.run].
  - intros [= <-]. exact Hs.
  - destruct (Session.step env e s) as [s1|] eqn:E; [|discriminate].
    apply IH. exact (Hstep e s s1 Hs E).
Qed.

Lemma not_pending_lookup (refs : list Session.Refresh) (p : nat) :
  Forall (fun r => Cache.pending r = false) refs ->
  match refs !! p with
  | Some Session.AwaitGenerate | Some (Session.AwaitEnable _) => False
  | _ => True
  end.
Proof.
  intros H. destruct (refs !! p) as [r|] eqn:E; [|exact I].
  pose proof (Forall_lookup_1 _ _ _ _ H E) as Hr. destruct r; try exact I;
    discriminate Hr.
Qed.

Lemma run_with_valid_credential (env : Env) (s : Session.State)
    (es : list Session.Event) (x s' : Session.State) :
  Forall (fun r => Cache.pending r = false) s.(Session.refreshes) ->
  Str.truthy s.(Session.cachedToken).(Session.token) = true ->
  (x.(Session.io) = s.(Session.io)
   /\ x.(Session.cachedToken) = s.(Session.cachedToken)
   /\ x.(Session.refreshes) = s.(Session.refreshes)
   /\ forall i c, s.(Session.callers) !! i = Some Session.Idle ->
                  x.(Session.callers) !! i = Some c ->
                  c = Session.Idle
                  \/ c = Session.Returned s.(Session.cachedToken).(Session.token)) ->
  Session.run env es x = Some s' ->
  (s'.(Session.now) < s.(Session.cachedToken).(Session.expiry))%Z ->
  s'.(Session.io) = s.(Session.io)
  /\ s'.(Session.cachedToken) = s.(Session.cachedToken)
  /\ s'.(Session.refreshes) = s.(Session.refreshes)
  /\ forall i c, s.(Session.callers) !! i = Some Session.Idle ->
                 s'.(Session.callers) !! i = Some c ->
                 c = Session.Idle
                 \/ c = Session.Returned s.(Session.cachedToken).(Session.token).
Proof.
  intros Hrefs Htok.
  set (tok := s.(Session.cachedToken).(Session.token)).
  revert x. induction es as [|e es IH]; intros x Hx; cbn [Session.run].
  { intros [= <-] _. exact Hx. }
  destruct (Session.step env e x) as [x1|] eqn:E; [|discriminate].
  intros Hrun Hbound. apply (IH x1); auto. clear IH.
  destruct Hx as (Hio & Hc & Hr & Hcallers).
  assert (Hv : Session.valid x.(Session.cachedToken) x.(Session.now) = true).
  { unfold Session.valid. rewrite Hc, Htok. apply Z.ltb_lt.
    apply step_now_any in E. apply run_now_any in Hrun. lia. }
  assert (Hset : forall i v,
            (forall c, x.(Session.callers) !! i = Some c ->
                       s.(Session.callers) !! i = Some Session.Idle ->
                       v = Session.Returned tok) ->
            forall j c, s.(Session.callers) !! j = Some Session.Idle ->
              (<[i := v]> x.(Session.callers)) !! j = Some c ->
              c = Session.Idle \/ c = Session.Returned tok).
  { intros i v Hiv j c Hj Hlook. destruct (decide (i = j)) as [->|Hne].
    - destruct (x.(Session.callers) !! j) as [c'|] eqn:Ej.
      + rewrite list_lookup_insert_eq in Hlook by (eapply lookup_lt_Some, Ej).
        injection Hlook as <-. right. eapply Hiv; eauto.
      + rewrite list_insert_ge in Hlook
          by (apply lookup_ge_None; exact Ej). congruence.
    - rewrite list_lookup_insert_ne in Hlook by exact Hne. eauto. }
  pose proof (not_pending_lookup (Session.refreshes x)) as Hnp.
  rewrite Hr in Hnp. specialize (fun p => Hnp p Hrefs). rewrite <- Hr in Hnp.
  destruct e as [i|p r|p r|i|ms]; cbn [Session.step] in E.
  - destruct (Session.callers x !! i) as [[]|] eqn:Ei; try discriminate.
    injection E as <-. unfold Session.getAuthToken. rewrite Hv.
    unfold Session.set_caller. cbn. repeat split; auto.
    apply Hset. intros c _ _. rewrite Hc. reflexivity.
  - specialize (Hnp p). destruct (Session.refreshes x !! p) as [[]|];
      try discriminate; contradiction.
  - specialize (Hnp p). destruct (Session.refreshes x !! p) as [[]|];
      try discriminate; contradiction.
  - destruct (Session.callers x !! i) as [[| p | p | |]|] eqn:Ei; try discriminate;
      specialize (Hnp p);
      destruct (Session.refreshes x !! p) as [[]|]; try discriminate;
      try contradiction; rewrite ?Hv in E; injection E as <-;
      unfold Session.set_caller; cbn; repeat split; auto;
      apply Hset; intros c Hc' Hidle;
      specialize (Hcallers i _ Hidle Ei); destruct Hcallers; discriminate.
  - destruct (0 <=? ms)%Z; [|discriminate]. injection E as <-. cbn.
    repeat split; auto.
Qed.

(** X12.  While the cached credential is valid and no refresh is in
    flight, nothing any request does reaches the gateway or the disk:
    whatever the schedule of calls, resumptions and time passing, as long
    as it ends before the expiry, the gateway calls made and the snapshots
    written are those made before, the credential and the refresh
    operations are unchanged, and every request that was about to call and
    has been answered got the cached token. *)
Theorem valid_credential_stops_traffic (env : Env) (s s' : Session.State)
    (es : list Session.Event) :
  forallb (fun r => negb (Cache.pending r)) s.(Session.refreshes) = true ->
  Str.truthy s.(Session.cachedToken).(Session.token) = true ->
  Session.run env es s = Some s' ->
  (s'.(Session.now) < s.(Session.cachedToken).(Session.expiry))%Z ->
  s'.(Session.io) = s.(Session.io)
  /\ s'.(Session.cachedToken) = s.(Session.cachedToken)
  /\ s'.(Session.refreshes) = s.(Session.refreshes)
  /\ forall i c,
       s.(Session.callers) !! i = Some Session.Idle ->
       s'.(Session.callers) !! i = Some c ->
       c = Session.Idle
       \/ c = Session.Returned s.(Session.cachedToken).(Session.token).
Proof.
  intros Hrefs Htok Hrun Hbound.
  apply (run_with_valid_credential env s es s s'); auto.
  { apply Forall_forall. intros r Hr. rewrite forallb_forall in Hrefs.
    apply negb_true_iff, Hrefs, list_elem_of_In, Hr. }
  repeat split; auto. intros i c H1 H2. left. congruence.
Qed.

Lemma valid_credential_stops_traffic_witness :
  Cache.both_served.(Session.io) = Cache.holding_T1.(Session.io)
  /\ Cache.both_served.(Session.cachedToken) = Cache.holding_T1.(Session.cachedToken)
  /\ Cache.both_served.(Session.refreshes) = Cache.holding_T1.(Session.refreshes)
  /\ forall i c,
       Cache.holding_T1.(Session.callers) !! i = Some Session.Idle ->
       Cache.both_served.(Session.callers) !! i = Some c ->
       c = Session.Idle
       \/ c = Session.Returned Cache.holding_T1.(Session.cachedToken).(Session.token).
Proof.
  apply (valid_credential_stops_traffic Sample.env Cache.holding_T1
           Cache.both_served
           [ Session.Call 1; Session.Tick 300; Session.Call 0 ]);
    reflexivity.
Defined.





Lemma filter_length_snoc {A} (f : A -> bool) (l : list A) (x : A) :
  length (List.filter f (l ++ [x])) = length (List.filter f l) + Nat.b2n (f x).
Proof.
  rewrite List.filter_app, length_app. cbn [List.filter].
  destruct (f x); reflexivity.
Qed.

Lemma filter_length_insert {A} (f : A -> bool) (l : list A) (p : nat) (x y : A) :
  l !! p = Some y ->
  length (List.filter f (<[p := x]> l)) + Nat.b2n (f y)
  = length (List.filter f l) + Nat.b2n (f x).
Proof.
  revert p. induction l as [|z l IH]; intros [|p]; cbn [lookup list_lookup];
    try discriminate.
  - intros [= ->]. simpl. destruct (f x), (f y); simpl; lia.
  - intros H. specialize (IH p H). simpl. destruct (f z); simpl; lia.
Qed.

Lemma fulfilled_past_generate (refs : list Session.Refresh) :
  length (List.filter Cache.is_fulfilled refs)
  <= length (List.filter Cache.past_generate refs).
Proof.
  induction refs as [|r refs IH]; [reflexivity|].
  cbn [List.filter]. destruct r; cbn [Cache.is_fulfilled Cache.past_generate length];
    lia.
Qed.

(** The counts kept by every event. *)
Lemma step_counts (env : Env) (e : Session.Event) (s s1 : Session.State) :
  Cache.accounted s -> Session.step env e s = Some s1 -> Cache.accounted s1.
Proof.
  destruct s as [cached slot refs cs t log].
  unfold Cache.accounted, Session.count_io. cbn.
  intros (Hg & He & Hp & Hd & Hslot) H.
  assert (Hcaller : forall i c,
            Session.set_caller i c
              {| Session.cachedToken := cached; Session.tokenRefreshPromise := slot;
                 Session.refreshes := refs; Session.callers := cs;
                 Session.now := t; Session.io := log |} = s1 ->
            length (List.filter Session.is_generate (Session.io s1))
            = length (Session.refreshes s1)
            /\ length (List.filter Session.is_enable (Session.io s1))
               + length (List.filter Cache.at_generate (Session.refreshes s1))
               <= length (Session.refreshes s1)
            /\ length (List.filter Cache.past_generate (Session.refreshes s1))
               <= length (List.filter Session.is_enable (Session.io s1))
            /\ length (List.filter Session.is_disk_write (Session.io s1))
               = length (List.filter Cache.is_fulfilled (Session.refreshes s1))
            /\ forall p, Session.tokenRefreshPromise s1 = Some p ->
                 S p = length (Session.refreshes s1)
                 /\ exists r, Session.refreshes s1 !! p = Some r
                              /\ Cache.pending r = true).
  { intros i c <-. cbn. auto. }
  assert (Hstart : forall i,
            Session.start_refresh env i
              {| Session.cachedToken := cached; Session.tokenRefreshPromise := slot;
                 Session.refreshes := refs; Session.callers := cs;
                 Session.now := t; Session.io := log |} = s1 ->
            length (List.filter Session.is_generate (Session.io s1))
            = length (Session.refreshes s1)
            /\ length (List.filter Session.is_enable (Session.io s1))
               + length (List.filter Cache.at_generate (Session.refreshes s1))
               <= length (Session.refreshes s1)
            /\ length (List.filter Cache.past_generate (Session.refreshes s1))
               <= length (List.filter Session.is_enable (Session.io s1))
            /\ length (List.filter Session.is_disk_write (Session.io s1))
               = length (List.filter Cache.is_fulfilled (Session.refreshes s1))
            /\ forall p, Session.tokenRefreshPromise s1 = Some p ->
                 S p = length (Session.refreshes s1)
                 /\ exists r, Session.refreshes s1 !! p = Some r
                              /\ Cache.pending r = true).
  { intros i. unfold Session.start_refresh.
    destruct (negb _ || negb _); [apply Hcaller|]. intros <-. cbn.
    rewrite !filter_length_snoc, !length_app. cbn.
    do 4 (split; [lia|]). intros q [= <-]. split; [lia|].
    exists Session.AwaitGenerate.
    rewrite lookup_app_r, Nat.sub_diag by lia. auto. }
  assert (Hreject : forall p m y,
            refs !! p = Some y -> Cache.pending y = true ->
            Session.reject p m
              {| Session.cachedToken := cached; Session.tokenRefreshPromise := slot;
                 Session.refreshes := refs; Session.callers := cs;
                 Session.now := t; Session.io := log |} = s1 ->
            length (List.filter Session.is_generate (Session.io s1))
            = length (Session.refreshes s1)
            /\ length (List.filter Session.is_enable (Session.io s1))
               + length (List.filter Cache.at_generate (Session.refreshes s1))
               <= length (Session.refreshes s1)
            /\ length (List.filter Cache.past_generate (Session.refreshes s1))
               <= length (List.filter Session.is_enable (Session.io s1))
            /\ length (List.filter Session.is_disk_write (Session.io s1))
               = length (List.filter Cache.is_fulfilled (Session.refreshes s1))
            /\ forall p, Session.tokenRefreshPromise s1 = Some p ->
                 S p = length (Session.refreshes s1)
                 /\ exists r, Session.refreshes s1 !! p = Some r
                              /\ Cache.pending r = true).
  { intros p m y Hy Hpend <-. cbn. rewrite length_insert.
    pose proof (filter_length_insert Cache.at_generate refs p (Session.Rejected m) y Hy).
    pose proof (filter_length_insert Cache.past_generate refs p (Session.Rejected m) y Hy).
    pose proof (filter_length_insert Cache.is_fulfilled refs p (Session.Rejected m) y Hy).
    destruct y; try discriminate Hpend; cbn in *; do 4 (split; [lia|]);
      discriminate. }
  destruct e as [i|p r|p r|i|ms]; cbn [Session.step Session.callers
                                        Session.refreshes] in H.
  - destruct (cs !! i) as [[]|]; try discriminate. injection H as H.
    unfold Session.getAuthToken in H. cbn in H.
    destruct (Session.valid cached t); [eapply Hcaller, H|].
    destruct slot; [eapply Hcaller, H | eapply Hstart, H].
  - destruct (refs !! p) as [[]|] eqn:Ep; try discriminate. injection H as H.
    unfold Session.on_generate in H.
    destruct r as [m|status bodyText [m|tok]];
      try (eapply Hreject; [exact Ep | reflexivity | exact H]).
    destruct (negb (http_ok status));
      try (eapply Hreject; [exact Ep | reflexivity | exact H]).
    destruct (negb (http_ok status));
      try (eapply Hreject; [exact Ep | reflexivity | exact H]).
    destruct (negb (Str.truthy tok));
      try (eapply Hreject; [exact Ep | reflexivity | exact H]).
    subst s1. unfold Session.call_enable. cbn.
    rewrite filter_length_snoc, length_insert.
    rewrite !List.filter_app, !length_app. cbn.
    pose proof (filter_length_insert Cache.at_generate refs p
                  (Session.AwaitEnable tok) _ Ep).
    pose proof (filter_length_insert Cache.past_generate refs p
                  (Session.AwaitEnable tok) _ Ep).
    pose proof (filter_length_insert Cache.is_fulfilled refs p
                  (Session.AwaitEnable tok) _ Ep).
    cbn in *. do 4 (split; [lia|]). intros q Hq.
    destruct (Hslot q Hq) as (Hlast & r & Hr & Hpr). split; [exact Hlast|].
    destruct (decide (p = q)) as [->|Hne].
    + exists (Session.AwaitEnable tok).
      rewrite list_lookup_insert_eq by (eapply lookup_lt_Some, Ep). auto.
    + exists r. rewrite list_lookup_insert_ne by exact Hne. auto.
  - destruct (refs !! p) as [[| tok | |]|] eqn:Ep; try discriminate.
    injection H as H. unfold Session.on_enable in H.
    destruct r as [m|status bodyText json];
      try (eapply Hreject; [exact Ep | reflexivity | exact H]).
    destruct (negb (http_ok status));
      try (eapply Hreject; [exact Ep | reflexivity | exact H]).
    subst s1. unfold Session.publish, Session.saveTokenToDisk. cbn.
    rewrite filter_length_snoc, length_insert.
    rewrite !List.filter_app, !length_app. cbn.
    pose proof (filter_length_insert Cache.at_generate refs p
                  (Session.Fulfilled tok) _ Ep).
    pose proof (filter_length_insert Cache.past_generate refs p
                  (Session.Fulfilled tok) _ Ep).
    pose proof (filter_length_insert Cache.is_fulfilled refs p
                  (Session.Fulfilled tok) _ Ep).
    cbn in *. do 4 (split; [lia|]). discriminate.
  - destruct (cs !! i) as [[| p | p | |]|]; try discriminate;
      destruct (refs !! p) as [[]|]; try discriminate;
      try destruct (Session.valid _ _); injection H as H;
      first [eapply Hcaller, H | eapply Hstart, H].
  - destruct (0 <=? ms)%Z; [|discriminate]. injection H as <-. cbn. auto.
Qed.

(** X14.  Whatever the schedule, every refresh operation has made exactly
    one generate call, so that the generate calls made are as many as the
    refreshes started; there are never more enable calls than generate
    calls, and never more calls of [saveTokenToDisk] than enable calls:
    one per refresh that was fulfilled.  The promise slot, when it is
    occupied, holds the refresh started last, and that refresh is still in
    flight. *)
Theorem refreshes_are_accounted_for (env : Env) (c0 : Session.Credential)
    (t : Z) (n : nat) (es : list Session.Event) (s' : Session.State) :
  Session.run env es (Session.init c0 t n) = Some s' ->
  Session.count_io Session.is_generate s' = length s'.(Session.refreshes)
  /\ Session.count_io Session.is_disk_write s'
     = length (List.filter Cache.is_fulfilled s'.(Session.refreshes))
  /\ Session.count_io Session.is_disk_write s'
     <= Session.count_io Session.is_enable s'
     <= Session.count_io Session.is_generate s'
  /\ forall p, s'.(Session.tokenRefreshPromise) = Some p ->
       S p = length s'.(Session.refreshes)
       /\ exists r, s'.(Session.refreshes) !! p = Some r /\ Cache.pending r = true.
Proof.
  intros Hrun.
  destruct (run_invariant env Cache.accounted (step_counts env) es
              (Session.init c0 t n) s')
    as (Hg & He & Hp & Hd & Hslot); [|exact Hrun|].
  { unfold Cache.accounted, Session.count_io. cbn.
    repeat split; auto; discriminate. }
  split; [exact Hg|]. split; [exact Hd|]. split; [|exact Hslot].
  pose proof (fulfilled_past_generate s'.(Session.refreshes)). lia.
Qed.

Lemma refreshes_are_accounted_for_witness :
  Session.count_io Session.is_generate Sample.three_callers_served
  = length Sample.three_callers_served.(Session.refreshes).
Proof.
  refine (proj1 (refreshes_are_accounted_for Sample.env Session.no_credential
                   1000 3 Sample.three_callers Sample.three_callers_served _)).
  reflexivity.
Defined.



(** X16.  A failed refresh is retried by the next call.  When the reply to
    the generate or to the enable call of a refresh in flight makes it
    throw, and a request then calls while the cached credential is not
    valid, that call finds the promise slot empty and starts a new refresh
    of its own: it makes a new generate call with the old token, owns the
    new promise, and the failed refresh stays rejected; the cached
    credential is unchanged. *)
Theorem failed_refresh_is_retried (env : Env) (s : Session.State)
    (e : Session.Event) (p i : nat) :
  Str.truthy env.(PRAGATI_API_BASE_URL) = true ->
  Str.truthy env.(PRAGATI_API_KEY) = true ->
  Session.failing_reply s e = Some p ->
  s.(Session.callers) !! i = Some Session.Idle ->
  Session.valid s.(Session.cachedToken) s.(Session.now) = false ->
  exists s2 m,
    Session.run env [e; Session.Call i] s = Some s2
    /\ s2.(Session.tokenRefreshPromise) = Some (length s.(Session.refreshes))
    /\ s2.(Session.refreshes)
       = <[p := Session.Rejected m]> s.(Session.refreshes) ++ [Session.AwaitGenerate]
    /\ s2.(Session.callers)
       = <[i := Session.AwaitOwn (length s.(Session.refreshes))]> s.(Session.callers)
    /\ s2.(Session.io)
       = s.(Session.io) ++ [Session.Generate (Session.old_token s.(Session.cachedToken))]
    /\ s2.(Session.cachedToken) = s.(Session.cachedToken).
Proof.
  intros Hb Hk Hfail Hi Hv.
  assert (Hretry : forall m,
            exists s2,
              Session.run env [Session.Call i] (Session.reject p m s) = Some s2
              /\ s2.(Session.tokenRefreshPromise) = Some (length s.(Session.refreshes))
              /\ s2.(Session.refreshes)
                 = <[p := Session.Rejected m]> s.(Session.refreshes)
                   ++ [Session.AwaitGenerate]
              /\ s2.(Session.callers)
                 = <[i := Session.AwaitOwn (length s.(Session.refreshes))]>
                     s.(Session.callers)
              /\ s2.(Session.io)
                 = s.(Session.io)
                   ++ [Session.Generate (Session.old_token s.(Session.cachedToken))]
              /\ s2.(Session.cachedToken) = s.(Session.cachedToken)).
  { intros m. eexists. cbn [Session.run Session.step Session.reject Session.callers].
    rewrite Hi. unfold Session.getAuthToken, Session.start_refresh.
    cbn [Session.reject Session.cachedToken Session.now Session.tokenRefreshPromise
         Session.refreshes Session.callers Session.io].
    rewrite Hv, Hb, Hk. cbn [negb orb]. split; [reflexivity|].
    cbn. rewrite length_insert. repeat split; reflexivity. }
  destruct e as [q|q r|q r|q|ms]; cbn [Session.failing_reply] in Hfail;
    try discriminate.
  - destruct (Session.refreshes s !! q) as [[]|] eqn:Eq; try discriminate.
    destruct (Session.generate_fails r) eqn:Er; [|discriminate].
    injection Hfail as ->.
    assert (exists m, Session.on_generate p r s = Session.reject p m s) as [m Hm].
    { unfold Session.on_generate. destruct r as [m|status bodyText [m|tok]];
        cbn in Er; [eauto| |].
      - destruct (negb (http_ok status)); eauto.
      - destruct (negb (http_ok status)); [eauto|]. cbn in Er. rewrite Er. eauto. }
    destruct (Hretry m) as (s2 & Hrun & H). exists s2, m. split; [|exact H].
    cbn [Session.run Session.step]. rewrite Eq, Hm. exact Hrun.
  - destruct (Session.refreshes s !! q) as [[|tok| |]|] eqn:Eq; try discriminate.
    destruct (Session.enable_fails r) eqn:Er; [|discriminate].
    injection Hfail as ->.
    assert (exists m, Session.on_enable p tok r s = Session.reject p m s) as [m Hm].
    { unfold Session.on_enable. destruct r as [m|status bodyText json];
        cbn in Er; [eauto|]. rewrite Er. eauto. }
    destruct (Hretry m) as (s2 & Hrun & H). exists s2, m. split; [|exact H].
    cbn [Session.run Session.step]. rewrite Eq, Hm. exact Hrun.
Qed.

Lemma failed_refresh_is_retried_witness :
  exists s2 m,
    Session.run Sample.env [Sample.enable_refused; Session.Call 2] Cache.late_caller
    = Some s2
    /\ s2.(Session.tokenRefreshPromise) = Some 1
    /\ s2.(Session.refreshes)
       = <[0 := Session.Rejected m]> Cache.late_caller.(Session.refreshes)
         ++ [Session.AwaitGenerate]
    /\ s2.(Session.callers)
       = <[2 := Session.AwaitOwn 1]> Cache.late_caller.(Session.callers)
    /\ s2.(Session.io)
       = Cache.late_caller.(Session.io) ++ [Session.Generate "old"]
    /\ s2.(Session.cachedToken) = Cache.late_caller.(Session.cachedToken).
Proof.
  apply (failed_refresh_is_retried Sample.env Cache.late_caller
           Sample.enable_refused 0 2); reflexivity.
Defined.

(** The single-message endpoint on a body with the documented types: no
    token, no send, no summary. *)
Lemma typed_single_never_sends (env : Env) (auth : result string)
    (gateway : Gateway) (body : SingleBody) :
  snd (sendSingleSMS env auth gateway body) = []
  /\ (fst (sendSingleSMS env auth gateway body) = NextError configuration_incomplete
      \/ exists error message,
           fst (sendSingleSMS env auth gateway body) = BadRequest error message).
Proof.
  unfold sendSingleSMS.
  destruct (negb (Str.truthy (single_phone body))
            || negb (Str.truthy (single_message body))) eqn:E;
    [cbn; eauto|].
  apply orb_false_iff in E as [Ep Em].
  apply negb_false_iff in Ep, Em.
  destruct (validatePhoneNumber (single_phone body)) eqn:Ev; [|cbn; eauto].
  unfold sendBulkSMS.
  cbn [negb recipients template templateid length Nat.ltb Nat.leb
       validate_recipients phone message].
  rewrite Ep, Ev, Em. cbn [negb orb andb Str.truthy].
  rewrite !orb_true_r. cbn. auto.
Qed.

(** The body handed over to [sendBulkSMS] passes its validation and has no
    template id. *)
Lemma single_as_bulk (env : Env) (auth : result string) (gateway : Gateway)
    (s : string) (message : option Wire.Json) :
  validatePhoneNumber s = true ->
  Wire.truthy message = true ->
  Wire.sendBulkSMS env auth gateway
    {| Wire.raw_template := None;
       Wire.raw_templateid := None;
       Wire.raw_recipients :=
         Some (Wire.JArray
                 [ Wire.JObject (Wire.member "phone" (Some (Wire.JString s))
                                 ++ Wire.member "message" message) ]) |}
  = Some (NextError configuration_incomplete, []).
Proof.
  intros Hv Hm. destruct message as [m|]; [|discriminate Hm].
  unfold Wire.sendBulkSMS, Wire.validate.
  cbn [Wire.raw_recipients Wire.raw_template Wire.raw_templateid length Nat.eqb
       Nat.ltb Nat.leb Wire.check_recipients Wire.check_recipient Wire.member app
       Wire.property JsObject.own].
  change (String.eqb "phone" "phone") with true.
  change (String.eqb "message" "phone") with false.
  change (String.eqb "message" "message") with true.
  cbv iota.
  change (Wire.truthy (Some (Wire.JString s))) with (Str.truthy s).
  change (Wire.truthy None) with false.
  rewrite (valid_phone_truthy _ Hv), Hv, Hm. cbn [negb andb orb].
  rewrite !orb_true_r. reflexivity.
Qed.

(** X17.  The single-message endpoint never reaches the gateway.  Whatever
    JSON the body holds, whatever the environment, the token and the
    gateway, it asks for no token and sends nothing, and it never answers
    with a summary.  A missing or falsy phone or message, and a phone that
    is a string but not a valid number, get a 400 reply; a phone that is
    truthy without being a string makes [validatePhoneNumber] throw, and
    the TypeError is passed to [next]; every other request is handed to
    [sendBulkSMS] without template id, and "SMS configuration incomplete"
    is passed to [next].  On a body with the documented types this is the
    handler on the typed body. *)
Theorem sendSingleSMS_never_sends (env : Env) (auth : result string)
    (gateway : Gateway) (rq : Wire.SingleRequest) :
  let phone := rq.(Wire.raw_phone) in
  let message := rq.(Wire.raw_message) in
  exists reply,
    Wire.sendSingleSMS env auth gateway rq = Some (reply, [])
    /\ (reply = NextError configuration_incomplete
        \/ reply = NextError Wire.replace_not_a_function
        \/ exists error text, reply = BadRequest error text)
    /\ (reply = NextError Wire.replace_not_a_function
        <-> Wire.truthy phone = true /\ Wire.truthy message = true
            /\ Wire.is_string phone = false)
    /\ (reply = NextError configuration_incomplete
        <-> Wire.truthy message = true
            /\ exists s, phone = Some (Wire.JString s)
                         /\ validatePhoneNumber s = true)
    /\ (forall p m,
          Wire.text phone = Some p -> Wire.text message = Some m ->
          (reply, [])
          = sendSingleSMS env auth gateway
              {| single_phone := p; single_message := m |}).
Proof.
  intros ph msg. unfold Wire.sendSingleSMS. fold ph msg.
  destruct (Wire.truthy ph) eqn:Hp; cbn [negb orb].
  2:{ eexists. split; [reflexivity|]. split; [eauto|].
      split; [split; [discriminate | intros (H & _); discriminate]|].
      split; [split; [discriminate|]|].
      - intros (_ & s & -> & Hv). apply valid_phone_truthy in Hv.
        cbn in Hp. congruence.
      - intros p m Hpt _. unfold sendSingleSMS. cbn [single_phone single_message].
        rewrite (text_truthy _ _ Hpt), Hp. reflexivity. }
  destruct (Wire.truthy msg) eqn:Hm; cbn [negb].
  2:{ eexists. split; [reflexivity|]. split; [eauto|].
      split; [split; [discriminate | intros (_ & H & _); discriminate]|].
      split; [split; [discriminate | intros (H & _); discriminate]|].
      intros p m Hpt Hmt. unfold sendSingleSMS. cbn [single_phone single_message].
      rewrite (text_truthy _ _ Hpt), (text_truthy _ _ Hmt), Hp, Hm. reflexivity. }
  destruct ph as [[|b|nz|s|arr|obj]|] eqn:Ephone; try discriminate Hp;
    try (eexists; split; [reflexivity|]; split; [eauto|];
         split; [split; [auto | reflexivity]|];
         split; [split; [discriminate | intros (_ & s' & H & _); discriminate]|];
         intros p m Hpt; unfold Wire.text in Hpt; rewrite Hp in Hpt;
         discriminate Hpt).
  destruct (validatePhoneNumber s) eqn:Hv; cbn [negb].
  - exists (NextError configuration_incomplete).
    split; [apply (single_as_bulk env auth gateway s msg Hv Hm)|].
    split; [auto|].
    split; [split; [discriminate | intros (_ & _ & H); discriminate]|].
    split; [split; [eauto | reflexivity]|].
    intros p m Hpt Hmt. unfold sendSingleSMS. cbn [single_phone single_message].
    rewrite (text_truthy _ _ Hpt), (text_truthy _ _ Hmt), Hp, Hm.
    apply (text_string _ _ Hpt) in Hp. injection Hp as <-.
    rewrite Hv. cbn [negb orb]. unfold sendBulkSMS.
    cbn [recipients template templateid length Nat.ltb Nat.leb
         validate_recipients phone message].
    rewrite (valid_phone_truthy _ Hv), Hv, (text_truthy _ _ Hmt), Hm.
    cbn [negb orb andb Str.truthy]. rewrite !orb_true_r. reflexivity.
  - eexists. split; [reflexivity|]. split; [eauto|].
    split; [split; [discriminate | intros (_ & _ & H); discriminate]|].
    split; [split; [discriminate|]|].
    + intros (_ & s' & [= <-] & Hv'). congruence.
    + intros p m Hpt Hmt. unfold sendSingleSMS. cbn [single_phone single_message].
      rewrite (text_truthy _ _ Hpt), (text_truthy _ _ Hmt), Hp, Hm.
      apply (text_string _ _ Hpt) in Hp. injection Hp as <-.
      rewrite Hv. reflexivity.
Qed.

(** A phone given as a number. *)
Lemma sendSingleSMS_never_sends_witness :
  exists reply,
    Wire.sendSingleSMS Sample.env (Return "tok") Sample.accepting
      Wire.numeric_single
    = Some (reply, [])
    /\ reply = NextError Wire.replace_not_a_function.
Proof.
  destruct (sendSingleSMS_never_sends Sample.env (Return "tok") Sample.accepting
              Wire.numeric_single) as (reply & Hreply & _ & Hthrow & _).
  exists reply. split; [exact Hreply|]. apply Hthrow. repeat split; reflexivity.
Defined.

Lemma update_keys {V} (o : JsObject.obj V) (k : string) (f : V -> V) :
  map fst (JsObject.update o k f) = map fst o.
Proof.
  induction o as [|[k' v] o IH]; [reflexivity|]. cbn [JsObject.update].
  destruct (String.eqb k k'); cbn [map fst]; [reflexivity|].
  rewrite IH. reflexivity.
Qed.

Lemma own_inherited_key {V} (o : JsObject.obj V) (k : string) :
  forallb (fun m => negb (JsObject.is_prototype_member m)) (map fst o) = true ->
  JsObject.is_prototype_member k = true ->
  JsObject.own o k = None.
Proof.
  intros Ho Hk. induction o as [|[k' v] o IH]; [reflexivity|].
  cbn [map fst forallb] in Ho. apply andb_true_iff in Ho as [Hk' Ho].
  cbn [JsObject.own]. destruct (String.eqb_spec k k') as [->|_]; [|exact (IH Ho)].
  rewrite Hk in Hk'. discriminate.
Qed.

(** The loop throws exactly when it meets a text that names an inherited
    member. *)
Lemma group_loop_throws (template : string) (rs : list Recipient)
    (g : JsObject.obj (list Recipient)) :
  forallb (fun m => negb (JsObject.is_prototype_member m)) (map fst g) = true ->
  if no_inherited_text template rs
  then exists g', group_loop template rs g = Return g'
  else group_loop template rs g = Throw push_not_a_function.
Proof.
  revert g. induction rs as [|r rs IH]; intros g Hg;
    cbn [no_inherited_text forallb group_loop]; [eauto|].
  fold (no_inherited_text template rs). unfold JsObject.get.
  destruct (JsObject.is_prototype_member (resolve_message template r)) eqn:Hr;
    cbn [negb andb].
  - rewrite (own_inherited_key g _ Hg Hr). reflexivity.
  - destruct (JsObject.own g (resolve_message template r)).
    + apply IH. rewrite update_keys. exact Hg.
    + apply IH. rewrite update_keys. unfold JsObject.define.
      rewrite map_app, forallb_app, Hg. cbn [map fst forallb andb].
      rewrite Hr. reflexivity.
Qed.

(** X18.  A recipient whose resolved message text is the name of a member
    of [Object.prototype] (constructor, toString, valueOf, ...) makes the
    whole request fail: the grouping loop finds the inherited member
    instead of a group and throws on [push].  The request has passed
    validation and has asked for its token by then; nothing is sent to any
    recipient of the request, and the TypeError is passed to [next]. *)
Theorem inherited_text_fails_request (env : Env) (gateway : Gateway)
    (body : BulkBody) (token : string) (rs : list Recipient) :
  accepted env body = Some rs ->
  no_inherited_text body.(template) rs = false ->
  make_batches body.(template) rs = Throw push_not_a_function
  /\ sendBulkSMS env (Return token) gateway body
     = (NextError push_not_a_function, [GetAuthToken]).
Proof.
  intros Hacc Hinh.
  assert (Hb : make_batches body.(template) rs = Throw push_not_a_function).
  { unfold make_batches.
    pose proof (group_loop_throws body.(template) rs [] eq_refl) as H.
    rewrite Hinh in H. rewrite H. reflexivity. }
  split; [exact Hb|].
  unfold accepted in Hacc. unfold sendBulkSMS.
  destruct (recipients body) as [[|r rest]|]; try discriminate.
  destruct (1000 <? length (r :: rest))%nat; [discriminate|].
  destruct (validate_recipients (template body) (r :: rest)); [discriminate|].
  destruct (Str.truthy (PRAGATI_API_BASE_URL env)); [|discriminate].
  destruct (Str.truthy (SMS_SENDER_ID env)); [|discriminate].
  destruct (Str.truthy (templateid body)); [|discriminate].
  cbn [negb andb orb] in *. injection Hacc as <-. rewrite Hb. reflexivity.
Qed.

Lemma inherited_text_fails_request_witness :
  sendBulkSMS Sample.env (Return "tok") Sample.accepting
    (Sample.body [ Sample.recipient "9876543210" "hello";
                   Sample.recipient "9876543211" "constructor" ])
  = (NextError push_not_a_function, [GetAuthToken]).
Proof.
  refine (proj2 (inherited_text_fails_request Sample.env Sample.accepting
                   (Sample.body [ Sample.recipient "9876543210" "hello";
                                  Sample.recipient "9876543211" "constructor" ])
                   "tok" _ _ _)); reflexivity.
Defined.
